(** * connect4.py: the move applier and the victory detector

    A shallow embedding of [src/connect4.py].  Python integers are [Z],
    a board is a [list Z] (row-major, bottom row first, seven columns),
    list indexing is fallible ([IndexError]) and the two [while] loops
    of the diagonal scans run on fuel. *)

From Stdlib Require Import ZArith List Bool Lia.
Import ListNotations.
Open Scope Z_scope.

(** ** The fragment of Python the program uses *)

Module Py.

(** Outcome of running a piece of code: a value, an [IndexError]
    raised by a subscript, or a loop that used up its fuel. *)
Inductive result (A : Type) : Type :=
| Ok (a : A)
| IndexError
| OutOfFuel.

Arguments Ok {A} a.
Arguments IndexError {A}.
Arguments OutOfFuel {A}.

Definition bind {A B : Type} (c : result A) (k : A -> result B) : result B :=
  match c with
  | Ok a => k a
  | IndexError => IndexError
  | OutOfFuel => OutOfFuel
  end.

(** [len(l)] *)
Definition len (l : list Z) : Z := Z.of_nat (length l).

(** [l[i]]: a negative subscript counts from the end, anything
    outside [-len(l) .. len(l)-1] raises. *)
Definition getitem (l : list Z) (i : Z) : result Z :=
  if (0 <=? i) && (i <? len l) then Ok (nth (Z.to_nat i) l 0)
  else if (- len l <=? i) && (i <? 0) then Ok (nth (Z.to_nat (len l + i)) l 0)
  else IndexError.

(** [range(lo, hi)] *)
Definition range (lo hi : Z) : list Z :=
  map (fun k => lo + Z.of_nat k) (seq 0 (Z.to_nat (hi - lo))).

(** [range(hi, lo, -1)] *)
Definition range_down (hi lo : Z) : list Z :=
  map (fun k => hi - Z.of_nat k) (seq 0 (Z.to_nat (hi - lo))).

(** [for x in xs: body], threading the variables the body assigns. *)
Fixpoint for_each {S : Type} (xs : list Z) (body : Z -> S -> result S)
         (s : S) : result S :=
  match xs with
  | [] => Ok s
  | x :: rest => bind (body x s) (for_each rest body)
  end.

(** The store of list objects: a reference is the position of the
    object, allocation appends. *)
Definition ref := nat.
Definition store := list (list Z).

Definition deref (st : store) (r : ref) : option (list Z) := nth_error st r.

(** [l.copy()]: a new object holding the same elements. *)
Definition list_copy (st : store) (r : ref) : option (ref * store) :=
  match deref st r with
  | Some l => Some (length st, st ++ [l])
  | None => None
  end.

End Py.

Import Py.

Notation "x <- c ;; k" := (bind c (fun x => k))
  (at level 61, c at next level, right associativity).

(** ** The program *)

Module Connect4.

Definition YELLOW : Z := 1.
Definition RED : Z := 2.
Definition COLS : Z := 7.

(** [check_move]: every move is accepted. *)
Definition check_move (board : list Z) (turn col : Z) (pop : bool) : bool := true.

(** [apply_move], on values: the elements of [board.copy()]. *)
Definition apply_move (board : list Z) (turn col : Z) (pop : bool) : list Z :=
  board.

(** [apply_move], on the store: [board] is a reference and the call
    allocates the copy. *)
Definition apply_move_ref (st : store) (board : ref) (turn col : Z)
           (pop : bool) : option (ref * store) :=
  list_copy st board.

(** [yellow_wins] and [red_wins]. *)
Record wins : Type := Wins { yellow_wins : bool; red_wins : bool }.

(** [streak_piece] and [index_of_streak_start]. *)
Record streak : Type := Streak { streak_piece : Z; index_of_streak_start : Z }.

Definition no_wins : wins := Wins false false.
Definition new_streak : streak := Streak 0 0.

(** [if streak_piece == YELLOW: yellow_wins = True
     elif streak_piece == RED: red_wins = True] *)
Definition record_win (p : Z) (w : wins) : wins :=
  if p =? YELLOW then Wins true (red_wins w)
  else if p =? RED then Wins (yellow_wins w) true
  else w.

(** The body shared by the four scans, at position [pos] of the line:
    [if piece != streak_piece:
         if streak_piece != 0 and pos - index_of_streak_start + 1 == 4: ...
         index_of_streak_start = pos
         streak_piece = piece] *)
Definition scan_cell (pos piece : Z) (s : streak * wins) : streak * wins :=
  let (k, w) := s in
  if negb (piece =? streak_piece k) then
    (Streak piece pos,
     if negb (streak_piece k =? 0) && (pos - index_of_streak_start k + 1 =? 4)
     then record_win (streak_piece k) w else w)
  else s.

(** The check after a line, [if streak_piece != 0 and extent == 4: ...],
    where [extent] is the expression each scan writes for the trailing run. *)
Definition scan_end (extent : Z) (s : streak * wins) : wins :=
  let (k, w) := s in
  if negb (streak_piece k =? 0) && (extent =? 4)
  then record_win (streak_piece k) w else w.

(** One row, left to right. *)
Definition scan_row (board : list Z) (row : Z) (w : wins) : result wins :=
  s <- for_each (range 0 COLS)
         (fun col s => piece <- getitem board (row * 7 + col) ;;
                       Ok (scan_cell col piece s))
         (new_streak, w) ;;
  Ok (scan_end (6 + 1 - index_of_streak_start (fst s)) s).

Definition check_horizontals (board : list Z) (num_rows : Z) (w : wins)
  : result wins :=
  for_each (range 0 num_rows) (scan_row board) w.

(** One column, bottom to top. *)
Definition scan_column (board : list Z) (num_rows col : Z) (w : wins)
  : result wins :=
  s <- for_each (range 0 num_rows)
         (fun row s => piece <- getitem board (row * 7 + col) ;;
                       Ok (scan_cell row piece s))
         (new_streak, w) ;;
  Ok (scan_end (5 + 1 - index_of_streak_start (fst s)) s).

Definition check_verticals (board : list Z) (num_rows : Z) (w : wins)
  : result wins :=
  for_each (range 0 COLS) (scan_column board num_rows) w.

(** [while row + diagonal_idx < num_rows and col - diagonal_idx >= 0] *)
Fixpoint walk_up_left (fuel : nat) (board : list Z) (num_rows row col : Z)
         (diagonal_idx : Z) (s : streak * wins) : result (streak * wins) :=
  match fuel with
  | O => OutOfFuel
  | S fuel' =>
      if (row + diagonal_idx <? num_rows) && (col - diagonal_idx >=? 0) then
        piece <- getitem board ((row + diagonal_idx) * 7 + col - diagonal_idx) ;;
        walk_up_left fuel' board num_rows row col (diagonal_idx + 1)
                     (scan_cell diagonal_idx piece s)
      else Ok s
  end.

(** [while row + diagonal_idx < num_rows and col + diagonal_idx < COLS] *)
Fixpoint walk_up_right (fuel : nat) (board : list Z) (num_rows row col : Z)
         (diagonal_idx : Z) (s : streak * wins) : result (streak * wins) :=
  match fuel with
  | O => OutOfFuel
  | S fuel' =>
      if (row + diagonal_idx <? num_rows) && (col + diagonal_idx <? COLS) then
        piece <- getitem board ((row + diagonal_idx) * 7 + col + diagonal_idx) ;;
        walk_up_right fuel' board num_rows row col (diagonal_idx + 1)
                      (scan_cell diagonal_idx piece s)
      else Ok s
  end.

(** Fuel for one diagonal: a walk visits each cell at most once. *)
Definition diagonal_fuel (board : list Z) : nat := S (length board).

(** [for row, col in starting_coords: body] *)
Fixpoint for_each_coord {S : Type} (cs : list (Z * Z))
         (body : Z -> Z -> S -> result S) (s : S) : result S :=
  match cs with
  | [] => Ok s
  | (row, col) :: rest => bind (body row col s) (for_each_coord rest body)
  end.

Definition up_left_starts (num_rows : Z) : list (Z * Z) :=
  map (fun x => (0, x)) (range 3 COLS)
  ++ map (fun x => (x, COLS - 1)) (range 1 (num_rows - 3)).

Definition up_right_starts (num_rows : Z) : list (Z * Z) :=
  map (fun x => (0, x)) (range_down (COLS - 4) (-1))
  ++ map (fun x => (x, 0)) (range 1 (num_rows - 3)).

Definition scan_up_left (board : list Z) (num_rows row col : Z) (w : wins)
  : result wins :=
  s <- walk_up_left (diagonal_fuel board) board num_rows row col 0
         (new_streak, w) ;;
  Ok (scan_end (num_rows - row - index_of_streak_start (fst s)) s).

Definition scan_up_right (board : list Z) (num_rows row col : Z) (w : wins)
  : result wins :=
  s <- walk_up_right (diagonal_fuel board) board num_rows row col 0
         (new_streak, w) ;;
  Ok (scan_end (num_rows - row - index_of_streak_start (fst s)) s).

Definition check_up_left (board : list Z) (num_rows : Z) (w : wins)
  : result wins :=
  for_each_coord (up_left_starts num_rows) (scan_up_left board num_rows) w.

Definition check_up_right (board : list Z) (num_rows : Z) (w : wins)
  : result wins :=
  for_each_coord (up_right_starts num_rows) (scan_up_right board num_rows) w.

(** The flags as they stand when the scans are over. *)
Definition scan_board (board : list Z) : result wins :=
  let num_rows := len board / COLS in
  w <- check_horizontals board num_rows no_wins ;;
  if num_rows >=? 4 then
    w <- check_verticals board num_rows w ;;
    w <- check_up_left board num_rows w ;;
    check_up_right board num_rows w
  else Ok w.

(** The four [return]s that close [check_victory]. *)
Definition verdict (w : wins) (who_played : Z) : Z :=
  if yellow_wins w && red_wins w then 3 - who_played
  else if yellow_wins w then YELLOW
  else if red_wins w then RED
  else 0.

Definition check_victory (board : list Z) (who_played : Z) : result Z :=
  w <- scan_board board ;;
  Ok (verdict w who_played).

(** [computer_move]: always drops in the first column. *)
Definition computer_move (board : list Z) (turn level : Z) : Z * bool :=
  (0, false).

End Connect4.

Import Connect4.

(** ** The vocabulary of the board contract

    What a valid board, a column and a line of four are.  These follow
    the description of the board (seven columns, cell [(row, col)] at
    [row * 7 + col], cells empty, YELLOW or RED); the program itself
    has no such functions. *)

Module BoardSpec.

Definition num_rows (b : list Z) : Z := len b / COLS.

Definition cell (b : list Z) (row col : Z) : Z :=
  nth (Z.to_nat (row * 7 + col)) b 0.

Definition valid_cell (v : Z) : bool :=
  (v =? 0) || (v =? YELLOW) || (v =? RED).

Definition valid_board (b : list Z) : bool :=
  (0 <? len b) && (len b mod COLS =? 0) && forallb valid_cell b.

Definition is_player (turn : Z) : bool := (turn =? YELLOW) || (turn =? RED).

Definition column_in_range (col : Z) : bool := (0 <=? col) && (col <? COLS).

(** The cells of a column, bottom first. *)
Definition column (b : list Z) (col : Z) : list Z :=
  map (fun row => cell b row col) (range 0 (num_rows b)).

Definition occupied (b : list Z) (col : Z) : Z :=
  len (filter (fun v => negb (v =? 0)) (column b col)).

Definition column_full (b : list Z) (col : Z) : bool :=
  occupied b col =? num_rows b.

Definition column_empty (b : list Z) (col : Z) : bool :=
  occupied b col =? 0.

(** Four cells of colour [p] on the board, from [(row, col)] in steps
    of [(drow, dcol)]. *)
Definition line_of_four (b : list Z) (p row col drow dcol : Z) : bool :=
  forallb (fun k =>
             let r := row + k * drow in
             let c := col + k * dcol in
             (0 <=? r) && (r <? num_rows b) && (0 <=? c) && (c <? COLS)
             && (cell b r c =? p))
          (range 0 4).

Definition directions : list (Z * Z) := [(0, 1); (1, 0); (1, 1); (1, -1)].

(** Four in a row for [p] somewhere, in some orientation. *)
Definition has_four (b : list Z) (p : Z) : bool :=
  existsb (fun r =>
    existsb (fun c =>
      existsb (fun d => line_of_four b p r c (fst d) (snd d)) directions)
    (range 0 COLS))
  (range 0 (num_rows b)).

(** Four consecutive [p] in some row, at columns [c .. c+3]. *)
Definition row_four (b : list Z) (p : Z) : bool :=
  existsb (fun r => existsb (fun c => line_of_four b p r c 0 1) (range 0 4))
          (range 0 (num_rows b)).

End BoardSpec.

Import BoardSpec.

(** ** Boards used below *)

Definition empty_row : list Z := [0; 0; 0; 0; 0; 0; 0].

(** Row 0 ends in four YELLOW, RED holds the diagonal from [(0,0)] to
    [(3,3)]. *)
Definition double_win_board : list Z :=
  [2; 1; 2; 1; 1; 1; 1;
   0; 2; 1; 2; 0; 0; 0;
   0; 0; 2; 1; 0; 0; 0;
   0; 0; 0; 2; 0; 0; 0].

(** The position of [double_win_board] on a board of six rows: the two
    upper rows are empty. *)
Definition double_win_six_rows : list Z :=
  double_win_board ++ empty_row ++ empty_row.

(** Three rows, the first column all YELLOW. *)
Definition three_high_board : list Z :=
  [1; 0; 0; 0; 0; 0; 0;
   1; 0; 0; 0; 0; 0; 0;
   1; 0; 0; 0; 0; 0; 0].

(** ** Reading the flags

    The flag that [check_victory] keeps for colour [p]: [yellow_wins]
    for 1, [red_wins] for 2, none for any other number. *)

Definition flag (p : Z) (w : wins) : bool :=
  if p =? YELLOW then yellow_wins w
  else if p =? RED then red_wins w
  else false.

(** The streak and the flags after the loop body has been run on the
    positions [xs] of a line, [cells x] being the piece read at [x]:
    what a scan loop computes once its subscripts are known to be in
    range. *)
Definition feed (cells : Z -> Z) (xs : list Z) (s : streak * wins)
  : streak * wins :=
  fold_left (fun t x => scan_cell x (cells x) t) xs s.

(** ** What a scan takes for a win

    Read off the two tests of a scan loop, for a line whose cell at
    position [x] is [cells x].  The test inside the loop fires when a
    streak of [p] that began at [c] is broken at [c + 3]; the test
    after the loop fires when the last streak is of [p] and began at
    [extent - 4], [extent] being the constant of that test (7 for a
    row, 6 for a column, [num_rows - row] for a diagonal). *)

Definition three_then_break (cells : Z -> Z) (p c : Z) : Prop :=
  (c = 0 \/ cells (c - 1) <> p)
  /\ cells c = p /\ cells (c + 1) = p /\ cells (c + 2) = p
  /\ cells (c + 3) <> p.

Definition run_to_end (cells : Z -> Z) (p i m : Z) : Prop :=
  (i = 0 \/ cells (i - 1) <> p) /\ forall j, i <= j < m -> cells j = p.

(** A line of [m] cells is taken for a win of [p]. *)
Definition line_hit (cells : Z -> Z) (p m extent : Z) : Prop :=
  (exists c, 0 <= c /\ c + 3 < m /\ three_then_break cells p c)
  \/ (exists i, 0 <= i < m /\ extent - i = 4 /\ run_to_end cells p i m).

(** Some line that [check_victory] scans is taken for a win of [p]:
    a row; or, on four rows or more, a column or a diagonal from one
    of the starting points of the two diagonal scans. *)
Definition board_hit (board : list Z) (p : Z) : Prop :=
  let n := len board / COLS in
  (exists row, 0 <= row < n /\ line_hit (cell board row) p 7 7)
  \/ (4 <= n
      /\ ((exists col, 0 <= col < 7
                       /\ line_hit (fun r => cell board r col) p n 6)
          \/ (exists row col,
                 In (row, col) (up_left_starts n)
                 /\ line_hit (fun k => cell board (row + k) (col - k)) p
                             (Z.min (n - row) (col + 1)) (n - row))
          \/ (exists row col,
                 In (row, col) (up_right_starts n)
                 /\ line_hit (fun k => cell board (row + k) (col + k)) p
                             (Z.min (n - row) (7 - col)) (n - row)))).

(** ** Exchanging the colours

    YELLOW for RED and RED for YELLOW, on a cell, on the flags and on
    the state of a scan. *)

Definition other_colour (v : Z) : Z :=
  if v =? YELLOW then RED else if v =? RED then YELLOW else v.

Definition swap_wins (w : wins) : wins := Wins (red_wins w) (yellow_wins w).

Definition swap_state (s : streak * wins) : streak * wins :=
  (Streak (other_colour (streak_piece (fst s))) (index_of_streak_start (fst s)),
   swap_wins (snd s)).

(** ** The move applier *)

Section MoveApplier.

Variables (board : list Z) (turn col : Z).

(** Whatever the move, the result has the elements of the argument. *)
Lemma apply_move_elements (pop : bool) : apply_move board turn col pop = board.
Proof. reflexivity. Qed.

Lemma apply_move_occupied (pop : bool) (c : Z) :
  occupied (apply_move board turn col pop) c = occupied board c.
Proof. now rewrite apply_move_elements. Qed.

End MoveApplier.

Lemma deref_old (st : store) (l : list Z) (q : ref) (x : list Z) :
  deref st q = Some x -> deref (st ++ [l]) q = Some x.
Proof.
  unfold deref. intros H.
  rewrite nth_error_app1; [exact H|].
  apply nth_error_Some. congruence.
Qed.

Lemma deref_new (st : store) (l : list Z) :
  deref st (length st) = None /\ deref (st ++ [l]) (length st) = Some l.
Proof.
  unfold deref. split.
  - apply nth_error_None. lia.
  - rewrite nth_error_app2 by lia. now rewrite Nat.sub_diag.
Qed.

(** C2.  A drop is meant to put the mover's piece on the first empty
    cell of the column and raise the column's count by one.  On the
    empty one-row board, a valid board whose column 0 is not full,
    [apply_move] with YELLOW, column 0 and [pop = False] leaves cell
    [(0,0)] empty and the count of column 0 at zero. *)
Theorem apply_move_drop_places_nothing :
  valid_board empty_row = true
  /\ column_full empty_row 0 = false
  /\ apply_move empty_row YELLOW 0 false = empty_row
  /\ cell (apply_move empty_row YELLOW 0 false) 0 0 = 0
  /\ occupied (apply_move empty_row YELLOW 0 false) 0 = occupied empty_row 0.
Proof. repeat split. Qed.

(** C3.  A pop is meant to take the bottom piece out of the column and
    lower the column's count by one.  On the one-row board with a
    single YELLOW piece in column 0, [apply_move] with [pop = True]
    leaves that piece at [(0,0)] and the count of column 0 at one. *)
Theorem apply_move_pop_removes_nothing :
  valid_board [1; 0; 0; 0; 0; 0; 0] = true
  /\ cell [1; 0; 0; 0; 0; 0; 0] 0 0 = YELLOW
  /\ apply_move [1; 0; 0; 0; 0; 0; 0] RED 0 true = [1; 0; 0; 0; 0; 0; 0]
  /\ cell (apply_move [1; 0; 0; 0; 0; 0; 0] RED 0 true) 0 0 = YELLOW
  /\ occupied (apply_move [1; 0; 0; 0; 0; 0; 0] RED 0 true) 0 = 1.
Proof. repeat split. Qed.

(** C8.  A drop into an empty column followed by a pop in that column
    is meant to be a round trip through a board whose column holds
    exactly one piece.  On the empty one-row board, YELLOW and column
    0, a valid board, player and empty column, the board between the
    two calls still has no piece in column 0: it is the board the
    first call was given.  The last board equals the first one only
    because neither call changes anything; the same holds of a drop
    and a pop in different columns, and of two drops. *)
Theorem apply_move_drop_then_pop_no_piece :
  valid_board empty_row = true
  /\ is_player YELLOW = true
  /\ column_in_range 0 = true
  /\ column_empty empty_row 0 = true
  /\ occupied (apply_move empty_row YELLOW 0 false) 0 = 0
  /\ cell (apply_move empty_row YELLOW 0 false) 0 0 = 0
  /\ apply_move (apply_move empty_row YELLOW 0 false) YELLOW 0 true = empty_row
  /\ apply_move (apply_move empty_row YELLOW 0 false) YELLOW 5 true = empty_row
  /\ apply_move (apply_move empty_row YELLOW 0 false) RED 0 false = empty_row.
Proof. repeat split. Qed.

(** C9.  For every board held in the store, every turn, column and pop
    flag, [apply_move] returns a reference that was not allocated
    before, whose object has the elements of the board in the same
    order; objects already in the store, the board among them, are as
    they were. *)
Theorem apply_move_is_a_fresh_copy
        (st : store) (r : ref) (board : list Z) (turn col : Z) (pop : bool) :
  deref st r = Some board ->
  exists (r' : ref) (st' : store),
    apply_move_ref st r turn col pop = Some (r', st')
    /\ deref st r' = None
    /\ r' <> r
    /\ deref st' r' = Some board
    /\ (forall q x, deref st q = Some x -> deref st' q = Some x)
    /\ apply_move board turn col pop = board.
Proof.
  intros Hr. exists (length st), (st ++ [board]).
  unfold apply_move_ref, list_copy. rewrite Hr.
  destruct (deref_new st board) as [Hfresh Hnew].
  repeat split; auto.
  - intros E. rewrite <- E in Hr. congruence.
  - intros q x. apply deref_old.
Qed.

Lemma apply_move_is_a_fresh_copy_witness :
  exists (r' : ref) (st' : store),
    apply_move_ref [empty_row] 0%nat RED 3 true = Some (r', st')
    /\ deref [empty_row] r' = None
    /\ r' <> 0%nat
    /\ deref st' r' = Some empty_row
    /\ (forall q x, deref [empty_row] q = Some x -> deref st' q = Some x)
    /\ apply_move empty_row RED 3 true = empty_row.
Proof.
  apply (apply_move_is_a_fresh_copy [empty_row] 0%nat empty_row RED 3 true).
  reflexivity.
Defined.

(** ** The victory detector: every subscript is in range, every loop ends *)

Lemma getitem_in_range (l : list Z) (i : Z) :
  0 <= i < len l -> exists v, getitem l i = Ok v.
Proof.
  intros [Hlo Hhi]. unfold getitem.
  apply Z.leb_le in Hlo. apply Z.ltb_lt in Hhi.
  rewrite Hlo, Hhi. simpl. eauto.
Qed.

Lemma in_range (lo hi x : Z) : In x (range lo hi) -> lo <= x < hi.
Proof.
  unfold range. rewrite in_map_iff.
  intros (k & <- & Hk). apply in_seq in Hk. lia.
Qed.

Lemma in_range_down (hi lo x : Z) : In x (range_down hi lo) -> lo < x <= hi.
Proof.
  unfold range_down. rewrite in_map_iff.
  intros (k & <- & Hk). apply in_seq in Hk. lia.
Qed.

Lemma for_each_total {S : Type} (xs : list Z) (body : Z -> S -> result S) :
  (forall x s, In x xs -> exists s', body x s = Ok s') ->
  forall s, exists s', for_each xs body s = Ok s'.
Proof.
  induction xs as [|x rest IH]; intros Hbody s; simpl.
  - eauto.
  - destruct (Hbody x s (or_introl eq_refl)) as [s1 ->]. simpl.
    apply IH. intros y t Hy. apply Hbody. now right.
Qed.

Lemma for_each_coord_total {S : Type} (cs : list (Z * Z))
      (body : Z -> Z -> S -> result S) :
  (forall row col s, In (row, col) cs -> exists s', body row col s = Ok s') ->
  forall s, exists s', for_each_coord cs body s = Ok s'.
Proof.
  induction cs as [|[row col] rest IH]; intros Hbody s; simpl.
  - eauto.
  - destruct (Hbody row col s (or_introl eq_refl)) as [s1 ->]. simpl.
    apply IH. intros r c t Hrc. apply Hbody. now right.
Qed.

Section Totality.

Variable board : list Z.
Variable num_rows : Z.
Hypothesis rows_fit : num_rows * 7 <= len board.

Lemma cell_in_range (row col : Z) :
  0 <= row < num_rows -> 0 <= col < 7 -> 0 <= row * 7 + col < len board.
Proof. lia. Qed.

Lemma scan_row_total (row : Z) (w : wins) :
  0 <= row < num_rows -> exists w', scan_row board row w = Ok w'.
Proof.
  intros Hrow. unfold scan_row.
  destruct (for_each_total (range 0 COLS)
              (fun col s => piece <- getitem board (row * 7 + col) ;;
                            Ok (scan_cell col piece s))) with (s := (new_streak, w))
    as [s ->].
  - intros col s Hcol. apply in_range in Hcol. unfold COLS in Hcol.
    destruct (getitem_in_range board (row * 7 + col)) as [v ->];
      [now apply cell_in_range|]. simpl. eauto.
  - simpl. eauto.
Qed.

Lemma check_horizontals_total (w : wins) :
  exists w', check_horizontals board num_rows w = Ok w'.
Proof.
  unfold check_horizontals. apply for_each_total.
  intros row s Hrow. apply scan_row_total. now apply in_range in Hrow.
Qed.

Lemma scan_column_total (col : Z) (w : wins) :
  0 <= col < 7 -> exists w', scan_column board num_rows col w = Ok w'.
Proof.
  intros Hcol. unfold scan_column.
  destruct (for_each_total (range 0 num_rows)
              (fun row s => piece <- getitem board (row * 7 + col) ;;
                            Ok (scan_cell row piece s))) with (s := (new_streak, w))
    as [s ->].
  - intros row s Hrow. apply in_range in Hrow.
    destruct (getitem_in_range board (row * 7 + col)) as [v ->];
      [now apply cell_in_range|]. simpl. eauto.
  - simpl. eauto.
Qed.

Lemma check_verticals_total (w : wins) :
  exists w', check_verticals board num_rows w = Ok w'.
Proof.
  unfold check_verticals. apply for_each_total.
  intros col s Hcol. apply scan_column_total. now apply in_range in Hcol.
Qed.

(** A walk up and to the left ends once [row + diagonal_idx] reaches
    [num_rows]; fuel beyond that distance is enough. *)
Lemma walk_up_left_total (row col : Z) :
  0 <= row -> col < 7 ->
  forall (fuel : nat) (d : Z) (s : streak * wins),
    0 <= d ->
    (Z.to_nat (num_rows - (row + d)) < fuel)%nat ->
    exists s', walk_up_left fuel board num_rows row col d s = Ok s'.
Proof.
  intros Hrow Hcol.
  induction fuel as [|fuel IH]; intros d s Hd Hfuel; [lia|].
  simpl.
  destruct ((row + d <? num_rows) && (col - d >=? 0)) eqn:Hcond; [|eauto].
  apply andb_true_iff in Hcond. destruct Hcond as [Hr Hc].
  apply Z.ltb_lt in Hr. apply Z.geb_le in Hc.
  destruct (getitem_in_range board ((row + d) * 7 + col - d)) as [v ->];
    [lia|].
  simpl. apply IH; lia.
Qed.

Lemma walk_up_right_total (row col : Z) :
  0 <= row -> 0 <= col ->
  forall (fuel : nat) (d : Z) (s : streak * wins),
    0 <= d ->
    (Z.to_nat (num_rows - (row + d)) < fuel)%nat ->
    exists s', walk_up_right fuel board num_rows row col d s = Ok s'.
Proof.
  intros Hrow Hcol.
  induction fuel as [|fuel IH]; intros d s Hd Hfuel; [lia|].
  simpl.
  destruct ((row + d <? num_rows) && (col + d <? COLS)) eqn:Hcond; [|eauto].
  apply andb_true_iff in Hcond. destruct Hcond as [Hr Hc].
  apply Z.ltb_lt in Hr. apply Z.ltb_lt in Hc. unfold COLS in Hc.
  destruct (getitem_in_range board ((row + d) * 7 + col + d)) as [v ->];
    [lia|].
  simpl. apply IH; lia.
Qed.

Lemma diagonal_fuel_enough (row : Z) :
  0 <= row -> (Z.to_nat (num_rows - (row + 0)) < diagonal_fuel board)%nat.
Proof. unfold diagonal_fuel, len in *. lia. Qed.

Lemma up_left_starts_in_board (row col : Z) :
  In (row, col) (up_left_starts num_rows) -> 0 <= row /\ col < 7.
Proof.
  unfold up_left_starts, COLS. rewrite in_app_iff, !in_map_iff.
  intros [(x & E & Hx) | (x & E & Hx)]; inversion E; subst;
    apply in_range in Hx; lia.
Qed.

Lemma up_right_starts_in_board (row col : Z) :
  In (row, col) (up_right_starts num_rows) -> 0 <= row /\ 0 <= col.
Proof.
  unfold up_right_starts, COLS. rewrite in_app_iff, !in_map_iff.
  intros [(x & E & Hx) | (x & E & Hx)]; inversion E; subst;
    [apply in_range_down in Hx | apply in_range in Hx]; lia.
Qed.

Lemma check_up_left_total (w : wins) :
  exists w', check_up_left board num_rows w = Ok w'.
Proof.
  unfold check_up_left. apply for_each_coord_total.
  intros row col s Hin. apply up_left_starts_in_board in Hin.
  destruct Hin as [Hrow Hcol]. unfold scan_up_left.
  destruct (walk_up_left_total row col Hrow Hcol (diagonal_fuel board) 0
              (new_streak, s)) as [t ->];
    [lia | now apply diagonal_fuel_enough |].
  simpl. eauto.
Qed.

Lemma check_up_right_total (w : wins) :
  exists w', check_up_right board num_rows w = Ok w'.
Proof.
  unfold check_up_right. apply for_each_coord_total.
  intros row col s Hin. apply up_right_starts_in_board in Hin.
  destruct Hin as [Hrow Hcol]. unfold scan_up_right.
  destruct (walk_up_right_total row col Hrow Hcol (diagonal_fuel board) 0
              (new_streak, s)) as [t ->];
    [lia | now apply diagonal_fuel_enough |].
  simpl. eauto.
Qed.

End Totality.

Lemma rows_fit_board (board : list Z) : len board / COLS * 7 <= len board.
Proof.
  unfold COLS. rewrite Z.mul_comm. apply Z.mul_div_le. lia.
Qed.

(** The scans of [check_victory] run to their end on every board. *)
Lemma scan_board_total (board : list Z) : exists w, scan_board board = Ok w.
Proof.
  unfold scan_board. pose proof (rows_fit_board board) as Hfit.
  destruct (check_horizontals_total board _ Hfit no_wins) as [w1 ->]. simpl.
  destruct (len board / COLS >=? 4); [|eauto].
  destruct (check_verticals_total board _ Hfit w1) as [w2 ->]. simpl.
  destruct (check_up_left_total board _ Hfit w2) as [w3 ->]. simpl.
  apply check_up_right_total. exact Hfit.
Qed.

Lemma verdict_values (w : wins) (who_played : Z) :
  who_played = 1 \/ who_played = 2 ->
  verdict w who_played = 0 \/ verdict w who_played = 1 \/ verdict w who_played = 2.
Proof.
  intros Hp. unfold verdict, YELLOW, RED.
  destruct (yellow_wins w), (red_wins w); cbn [andb]; destruct Hp; subst; auto.
Qed.

(** ** The victory detector: what it answers *)

(** C10.  On every board, of any length, and for [who_played] in {1,2},
    [check_victory] returns, and what it returns is 0, 1 or 2. *)
Theorem check_victory_answer_range (board : list Z) (who_played : Z) :
  who_played = 1 \/ who_played = 2 ->
  exists r, check_victory board who_played = Ok r /\ (r = 0 \/ r = 1 \/ r = 2).
Proof.
  intros Hp. unfold check_victory.
  destruct (scan_board_total board) as [w ->]. simpl.
  exists (verdict w who_played). split; [reflexivity|].
  now apply verdict_values.
Qed.

Lemma check_victory_answer_range_witness :
  exists r, check_victory [1; 2; 0; 1; 2] 1 = Ok r /\ (r = 0 \/ r = 1 \/ r = 2).
Proof.
  apply (check_victory_answer_range [1; 2; 0; 1; 2] 1). left. reflexivity.
Defined.

(** C1.  A board with a horizontal four for YELLOW and a diagonal four
    for RED, YELLOW having moved, is meant to be answered with RED.  On
    six rows, with YELLOW on row 0 columns 3..6 and RED on the diagonal
    from [(0,0)] to [(3,3)], only [yellow_wins] is set and the answer
    is YELLOW: the RED streak begins at 0 and is broken at 4, where the
    loop tests [4 - 0 + 1 == 4].  The same position on four rows,
    where the diagonal ends in the top row, is answered with RED. *)
Theorem check_victory_double_win_missed :
  valid_board double_win_six_rows = true
  /\ line_of_four double_win_six_rows YELLOW 0 3 0 1 = true
  /\ line_of_four double_win_six_rows RED 0 0 1 1 = true
  /\ scan_board double_win_six_rows = Ok (Wins true false)
  /\ check_victory double_win_six_rows YELLOW = Ok YELLOW
  /\ line_of_four double_win_board YELLOW 0 3 0 1 = true
  /\ line_of_four double_win_board RED 0 0 1 1 = true
  /\ scan_board double_win_board = Ok (Wins true true)
  /\ check_victory double_win_board YELLOW = Ok RED.
Proof. repeat split. Qed.

(** C7.  On a board of fewer than four rows the flags are those the
    horizontal scan leaves: neither the columns nor the diagonals are
    looked at, and the answer is read off the rows alone. *)
Theorem check_victory_below_four_rows (board : list Z) (who_played : Z) :
  len board / COLS < 4 ->
  scan_board board = check_horizontals board (len board / COLS) no_wins
  /\ check_victory board who_played
     = (w <- check_horizontals board (len board / COLS) no_wins ;;
        Ok (verdict w who_played)).
Proof.
  intros Hrows.
  assert (Hscan : scan_board board
                  = check_horizontals board (len board / COLS) no_wins).
  { unfold scan_board.
    destruct (len board / COLS >=? 4) eqn:Hguard.
    - apply Z.geb_le in Hguard. lia.
    - now destruct (check_horizontals board (len board / COLS) no_wins). }
  split; [exact Hscan|].
  unfold check_victory. now rewrite Hscan.
Qed.

(** Three YELLOW on top of each other on a three-row board: no winner. *)
Lemma check_victory_below_four_rows_witness :
  column three_high_board 0 = [YELLOW; YELLOW; YELLOW]
  /\ check_victory three_high_board YELLOW = Ok 0.
Proof.
  split; [reflexivity|].
  destruct (check_victory_below_four_rows three_high_board YELLOW) as [_ H];
    [reflexivity | rewrite H; reflexivity].
Defined.

(** C4.  The one-row board [[1,1,1,1,0,2,2]] holds four YELLOW in a
    row, yet [check_victory] with RED as the mover returns 0: when the
    run breaks at column 4 the test [col - index_of_streak_start + 1 == 4]
    compares 5 with 4. *)
Theorem check_victory_four_then_gap :
  row_four [1; 1; 1; 1; 0; 2; 2] YELLOW = true
  /\ scan_board [1; 1; 1; 1; 0; 2; 2] = Ok no_wins
  /\ check_victory [1; 1; 1; 1; 0; 2; 2] RED = Ok 0.
Proof. repeat split. Qed.

(** C5.  A run of five is not recorded: a trailing run of four YELLOW
    sets [yellow_wins], the same run grown to five does not, and
    neither does a run of five that is broken before the row ends. *)
Theorem check_victory_run_of_five :
  scan_board [0; 0; 0; 1; 1; 1; 1] = Ok (Wins true false)
  /\ scan_board [0; 0; 1; 1; 1; 1; 1] = Ok no_wins
  /\ check_victory [0; 0; 1; 1; 1; 1; 1] YELLOW = Ok 0
  /\ scan_board [1; 1; 1; 1; 1; 0; 0] = Ok no_wins
  /\ check_victory [1; 1; 1; 1; 1; 0; 0] YELLOW = Ok 0.
Proof. repeat split. Qed.

(** C6.  The one-row board [[1,1,1,1,0,0,0]] has four YELLOW at columns
    0..3 and no four for RED in any orientation, yet [check_victory]
    returns 0 whoever moved; so it does with the four at columns 1..4
    or 2..5, and only the four at columns 3..6, which ends the row, is
    answered with YELLOW.  The same with the colours exchanged. *)
Theorem check_victory_row_four_missed :
  row_four [1; 1; 1; 1; 0; 0; 0] YELLOW = true
  /\ has_four [1; 1; 1; 1; 0; 0; 0] RED = false
  /\ check_victory [1; 1; 1; 1; 0; 0; 0] YELLOW = Ok 0
  /\ check_victory [1; 1; 1; 1; 0; 0; 0] RED = Ok 0
  /\ check_victory [0; 1; 1; 1; 1; 0; 0] RED = Ok 0
  /\ check_victory [0; 0; 1; 1; 1; 1; 0] RED = Ok 0
  /\ check_victory [0; 0; 0; 1; 1; 1; 1] RED = Ok YELLOW
  /\ row_four [2; 2; 2; 2; 0; 0; 0] RED = true
  /\ has_four [2; 2; 2; 2; 0; 0; 0] YELLOW = false
  /\ check_victory [2; 2; 2; 2; 0; 0; 0] YELLOW = Ok 0
  /\ check_victory [2; 2; 2; 2; 0; 0; 0] RED = Ok 0.
Proof. repeat split. Qed.


(** ** The victory detector: what the scans keep

    The four scans share one shape: a streak is started, the cells of a
    line are fed to [scan_cell], the trailing run goes to [scan_end].
    A property of the flags that this shape maintains is therefore
    maintained by the whole of [scan_board]. *)

Lemma getitem_In (l : list Z) (i v : Z) : getitem l i = Ok v -> In v l.
Proof.
  unfold getitem, len.
  destruct ((0 <=? i) && (i <? Z.of_nat (length l))) eqn:Hfront.
  - apply andb_true_iff in Hfront. destruct Hfront as [Hlo Hhi].
    apply Z.leb_le in Hlo. apply Z.ltb_lt in Hhi.
    intros E. inversion E. apply nth_In. lia.
  - destruct ((- Z.of_nat (length l) <=? i) && (i <? 0)) eqn:Hback;
      [|discriminate].
    apply andb_true_iff in Hback. destruct Hback as [Hlo Hhi].
    apply Z.leb_le in Hlo. apply Z.ltb_lt in Hhi.
    intros E. inversion E. apply nth_In. lia.
Qed.

Lemma for_each_keeps {S : Type} (P : S -> Prop) (xs : list Z)
      (body : Z -> S -> result S) :
  (forall x s s', In x xs -> P s -> body x s = Ok s' -> P s') ->
  forall s s', P s -> for_each xs body s = Ok s' -> P s'.
Proof.
  induction xs as [|x rest IH]; intros Hbody s s' Hs; simpl.
  - intros E. inversion E. now subst.
  - destruct (body x s) as [t| |] eqn:Hx; simpl; try discriminate.
    apply IH.
    + intros y u u' Hy. apply Hbody. now right.
    + eapply Hbody; eauto. now left.
Qed.

Lemma for_each_coord_keeps {S : Type} (P : S -> Prop) (cs : list (Z * Z))
      (body : Z -> Z -> S -> result S) :
  (forall row col s s', P s -> body row col s = Ok s' -> P s') ->
  forall s s', P s -> for_each_coord cs body s = Ok s' -> P s'.
Proof.
  intros Hbody.
  induction cs as [|[row col] rest IH]; intros s s' Hs; simpl.
  - intros E. inversion E. now subst.
  - destruct (body row col s) as [t| |] eqn:Hx; simpl; try discriminate.
    apply IH. eapply Hbody; eauto.
Qed.

Section ScanInvariant.

Variable board : list Z.
Variable cell_ok : Z -> Prop.
Variable I : streak * wins -> Prop.
Variable J : wins -> Prop.

Hypothesis board_ok : forall v, In v board -> cell_ok v.
Hypothesis I_start : forall w, J w -> I (new_streak, w).
Hypothesis I_cell : forall pos v s, cell_ok v -> I s -> I (scan_cell pos v s).
Hypothesis J_end : forall extent s, I s -> J (scan_end extent s).

Lemma read_cell_keeps (idx : Z -> Z) (x : Z) (s s' : streak * wins) :
  I s ->
  (piece <- getitem board (idx x) ;; Ok (scan_cell x piece s)) = Ok s' ->
  I s'.
Proof.
  intros Hs. destruct (getitem board (idx x)) as [v| |] eqn:Hv;
    simpl; try discriminate.
  intros E. inversion E. apply I_cell; [|exact Hs].
  apply board_ok. eapply getitem_In; eauto.
Qed.

Lemma scan_row_keeps (row : Z) (w w' : wins) :
  J w -> scan_row board row w = Ok w' -> J w'.
Proof.
  intros Hw. unfold scan_row.
  destruct (for_each _ _ _) as [s| |] eqn:Hloop; simpl; try discriminate.
  intros E. inversion E. apply J_end.
  eapply (for_each_keeps I); [| apply I_start; exact Hw | exact Hloop].
  intros col t t' _ Ht. apply (read_cell_keeps (fun c => row * 7 + c)). exact Ht.
Qed.

Lemma scan_column_keeps (num_rows col : Z) (w w' : wins) :
  J w -> scan_column board num_rows col w = Ok w' -> J w'.
Proof.
  intros Hw. unfold scan_column.
  destruct (for_each _ _ _) as [s| |] eqn:Hloop; simpl; try discriminate.
  intros E. inversion E. apply J_end.
  eapply (for_each_keeps I); [| apply I_start; exact Hw | exact Hloop].
  intros row t t' _ Ht. apply (read_cell_keeps (fun r => r * 7 + col)). exact Ht.
Qed.

Lemma walk_up_left_keeps (num_rows row col : Z) :
  forall (fuel : nat) (d : Z) (s s' : streak * wins),
    I s -> walk_up_left fuel board num_rows row col d s = Ok s' -> I s'.
Proof.
  induction fuel as [|fuel IH]; intros d s s' Hs; simpl; [discriminate|].
  destruct ((row + d <? num_rows) && (col - d >=? 0)).
  - destruct (getitem board ((row + d) * 7 + col - d)) as [v| |] eqn:Hv;
      simpl; try discriminate.
    apply IH. apply I_cell; [|exact Hs].
    apply board_ok. eapply getitem_In; eauto.
  - intros E. inversion E. now subst.
Qed.

Lemma walk_up_right_keeps (num_rows row col : Z) :
  forall (fuel : nat) (d : Z) (s s' : streak * wins),
    I s -> walk_up_right fuel board num_rows row col d s = Ok s' -> I s'.
Proof.
  induction fuel as [|fuel IH]; intros d s s' Hs; simpl; [discriminate|].
  destruct ((row + d <? num_rows) && (col + d <? COLS)).
  - destruct (getitem board ((row + d) * 7 + col + d)) as [v| |] eqn:Hv;
      simpl; try discriminate.
    apply IH. apply I_cell; [|exact Hs].
    apply board_ok. eapply getitem_In; eauto.
  - intros E. inversion E. now subst.
Qed.

Lemma scan_up_left_keeps (num_rows row col : Z) (w w' : wins) :
  J w -> scan_up_left board num_rows row col w = Ok w' -> J w'.
Proof.
  intros Hw. unfold scan_up_left.
  destruct (walk_up_left _ _ _ _ _ _ _) as [s| |] eqn:Hloop;
    simpl; try discriminate.
  intros E. inversion E. apply J_end.
  eapply walk_up_left_keeps; [apply I_start; exact Hw | exact Hloop].
Qed.

Lemma scan_up_right_keeps (num_rows row col : Z) (w w' : wins) :
  J w -> scan_up_right board num_rows row col w = Ok w' -> J w'.
Proof.
  intros Hw. unfold scan_up_right.
  destruct (walk_up_right _ _ _ _ _ _ _) as [s| |] eqn:Hloop;
    simpl; try discriminate.
  intros E. inversion E. apply J_end.
  eapply walk_up_right_keeps; [apply I_start; exact Hw | exact Hloop].
Qed.

Lemma check_horizontals_keeps (num_rows : Z) (w w' : wins) :
  J w -> check_horizontals board num_rows w = Ok w' -> J w'.
Proof.
  unfold check_horizontals. apply for_each_keeps.
  intros row s s' _. apply scan_row_keeps.
Qed.

Lemma check_verticals_keeps (num_rows : Z) (w w' : wins) :
  J w -> check_verticals board num_rows w = Ok w' -> J w'.
Proof.
  unfold check_verticals. apply for_each_keeps.
  intros col s s' _. apply scan_column_keeps.
Qed.

Lemma check_up_left_keeps (num_rows : Z) (w w' : wins) :
  J w -> check_up_left board num_rows w = Ok w' -> J w'.
Proof.
  unfold check_up_left. apply for_each_coord_keeps.
  intros row col s s'. apply scan_up_left_keeps.
Qed.

Lemma check_up_right_keeps (num_rows : Z) (w w' : wins) :
  J w -> check_up_right board num_rows w = Ok w' -> J w'.
Proof.
  unfold check_up_right. apply for_each_coord_keeps.
  intros row col s s'. apply scan_up_right_keeps.
Qed.

(** What holds of the flags after the rows holds after all the scans. *)
Lemma after_rows_keeps (w0 w : wins) :
  J w0 ->
  check_horizontals board (len board / COLS) no_wins = Ok w0 ->
  scan_board board = Ok w ->
  J w.
Proof.
  intros Hw0 Hrows. unfold scan_board. rewrite Hrows. simpl.
  destruct (len board / COLS >=? 4).
  - destruct (check_verticals _ _ _) as [w1| |] eqn:H1; simpl; try discriminate.
    destruct (check_up_left _ _ _) as [w2| |] eqn:H2; simpl; try discriminate.
    intros H3.
    eapply check_up_right_keeps; [|exact H3].
    eapply check_up_left_keeps; [|exact H2].
    eapply check_verticals_keeps; [|exact H1]. exact Hw0.
  - intros E. inversion E. now subst.
Qed.

Lemma scan_board_keeps (w : wins) :
  J no_wins -> scan_board board = Ok w -> J w.
Proof.
  intros H0 Hscan.
  destruct (check_horizontals board (len board / COLS) no_wins) as [w0| |] eqn:Hrows.
  - apply (after_rows_keeps w0 w); [| exact Hrows | exact Hscan].
    apply (check_horizontals_keeps (len board / COLS) no_wins w0 H0 Hrows).
  - unfold scan_board in Hscan. rewrite Hrows in Hscan. discriminate.
  - unfold scan_board in Hscan. rewrite Hrows in Hscan. discriminate.
Qed.

End ScanInvariant.

(** *** The flags only go up, and only for colours that are read *)

Lemma record_win_sets (p : Z) (w : wins) :
  p = YELLOW \/ p = RED -> flag p (record_win p w) = true.
Proof. intros [-> | ->]; reflexivity. Qed.

Lemma record_win_keeps (p q : Z) (w : wins) :
  flag p w = true -> flag p (record_win q w) = true.
Proof.
  unfold flag, record_win.
  destruct (q =? YELLOW), (q =? RED), (p =? YELLOW), (p =? RED); simpl; auto.
Qed.

Lemma record_win_other (p q : Z) (w : wins) :
  q <> p -> flag p (record_win q w) = flag p w.
Proof.
  intros Hqp. unfold flag, record_win.
  destruct (Z.eqb_spec q YELLOW), (Z.eqb_spec q RED),
    (Z.eqb_spec p YELLOW), (Z.eqb_spec p RED); simpl; congruence.
Qed.

Lemma scan_cell_keeps_flag (p pos v : Z) (s : streak * wins) :
  flag p (snd s) = true -> flag p (snd (scan_cell pos v s)) = true.
Proof.
  destruct s as [k w]. unfold scan_cell. simpl.
  destruct (negb (v =? streak_piece k)); simpl; [|auto].
  destruct (negb (streak_piece k =? 0) && (pos - index_of_streak_start k + 1 =? 4));
    auto using record_win_keeps.
Qed.

Lemma scan_end_keeps_flag (p extent : Z) (s : streak * wins) :
  flag p (snd s) = true -> flag p (scan_end extent s) = true.
Proof.
  destruct s as [k w]. unfold scan_end. simpl.
  destruct (negb (streak_piece k =? 0) && (extent =? 4));
    auto using record_win_keeps.
Qed.

Lemma scan_cell_piece (pos v : Z) (s : streak * wins) :
  streak_piece (fst (scan_cell pos v s)) = v.
Proof.
  destruct s as [k w]. unfold scan_cell.
  destruct (Z.eqb_spec v (streak_piece k)); simpl; auto.
Qed.

Lemma scan_cell_absent (p pos v : Z) (s : streak * wins) :
  v <> p ->
  streak_piece (fst s) <> p /\ flag p (snd s) = false ->
  streak_piece (fst (scan_cell pos v s)) <> p
  /\ flag p (snd (scan_cell pos v s)) = false.
Proof.
  intros Hv [Hk Hw]. split; [now rewrite scan_cell_piece|].
  destruct s as [k w]. unfold scan_cell. simpl in *.
  destruct (negb (v =? streak_piece k)); simpl; [|exact Hw].
  destruct (negb (streak_piece k =? 0) && (pos - index_of_streak_start k + 1 =? 4));
    [now rewrite record_win_other | exact Hw].
Qed.

Lemma scan_end_absent (p extent : Z) (s : streak * wins) :
  streak_piece (fst s) <> p /\ flag p (snd s) = false ->
  flag p (scan_end extent s) = false.
Proof.
  intros [Hk Hw]. destruct s as [k w]. unfold scan_end. simpl in *.
  destruct (negb (streak_piece k =? 0) && (extent =? 4));
    [now rewrite record_win_other | exact Hw].
Qed.

(** A flag that is up after the rows is up at the end. *)
Lemma flag_survives (board : list Z) (p : Z) (w0 w : wins) :
  flag p w0 = true ->
  check_horizontals board (len board / COLS) no_wins = Ok w0 ->
  scan_board board = Ok w ->
  flag p w = true.
Proof.
  apply (after_rows_keeps board (fun _ => True)
           (fun s => flag p (snd s) = true) (fun w => flag p w = true)).
  - auto.
  - auto.
  - intros pos v s _. apply scan_cell_keeps_flag.
  - intros extent s. apply scan_end_keeps_flag.
Qed.

(** The flag of a colour that no cell holds stays down. *)
Lemma absent_colour_flag (board : list Z) (p : Z) (w : wins) :
  p = YELLOW \/ p = RED ->
  Forall (fun v => v <> p) board ->
  scan_board board = Ok w ->
  flag p w = false.
Proof.
  intros Hp Hall.
  apply (scan_board_keeps board (fun v => v <> p)
           (fun s => streak_piece (fst s) <> p /\ flag p (snd s) = false)
           (fun w => flag p w = false)).
  - apply Forall_forall. exact Hall.
  - intros w1 Hw1. simpl. split; [|exact Hw1].
    destruct Hp as [-> | ->]; discriminate.
  - intros pos v s. apply scan_cell_absent.
  - intros extent s. apply scan_end_absent.
  - destruct Hp as [-> | ->]; reflexivity.
Qed.

(** X1.  A board shorter than one row, the empty list included, has no
    row to scan: the answer is 0 whatever the cells and the mover. *)
Theorem check_victory_short_board (board : list Z) (who_played : Z) :
  len board < 7 -> check_victory board who_played = Ok 0.
Proof.
  intros Hshort. unfold check_victory, scan_board.
  assert (Hrows : len board / COLS = 0)
    by (apply Z.div_small; unfold len, COLS in *; lia).
  rewrite Hrows. reflexivity.
Qed.

Lemma check_victory_short_board_witness :
  check_victory [1; 1; 1; 1] YELLOW = Ok 0 /\ check_victory [] RED = Ok 0.
Proof.
  split.
  - apply (check_victory_short_board [1; 1; 1; 1] YELLOW). reflexivity.
  - apply (check_victory_short_board [] RED). reflexivity.
Defined.

(** X2.  When no cell of the board holds colour [p], [p] being 1 or 2,
    [check_victory] returns 0 or the other colour, [3 - p], whoever
    moved: a colour that is not on the board is never the winner. *)
Theorem check_victory_absent_colour (board : list Z) (p who_played : Z) :
  p = YELLOW \/ p = RED ->
  Forall (fun v => v <> p) board ->
  exists r, check_victory board who_played = Ok r /\ (r = 0 \/ r = 3 - p).
Proof.
  intros Hp Hall. unfold check_victory.
  destruct (scan_board_total board) as [w Hscan]. rewrite Hscan. simpl.
  exists (verdict w who_played). split; [reflexivity|].
  pose proof (absent_colour_flag board p w Hp Hall Hscan) as Hflag.
  unfold verdict. destruct Hp as [-> | ->]; unfold flag in Hflag; simpl in Hflag.
  - rewrite Hflag. simpl. destruct (red_wins w); auto.
  - rewrite Hflag. rewrite andb_false_r. destruct (yellow_wins w); auto.
Qed.

Lemma check_victory_absent_colour_witness :
  exists r, check_victory [0; 0; 0; 2; 2; 2; 2] YELLOW = Ok r
            /\ (r = 0 \/ r = 3 - YELLOW).
Proof.
  apply (check_victory_absent_colour [0; 0; 0; 2; 2; 2; 2] YELLOW YELLOW).
  - left. reflexivity.
  - repeat constructor; discriminate.
Defined.

(** X3.  On a board of any length whose cells are all 0, the answer is
    0 whoever moved. *)
Theorem check_victory_all_empty (board : list Z) (who_played : Z) :
  Forall (fun v => v = 0) board -> check_victory board who_played = Ok 0.
Proof.
  intros Hall. unfold check_victory.
  destruct (scan_board_total board) as [w Hscan]. rewrite Hscan. simpl.
  assert (Hy : flag YELLOW w = false).
  { apply (absent_colour_flag board YELLOW w); [now left | | exact Hscan].
    eapply Forall_impl; [|exact Hall]. intros v ->. discriminate. }
  assert (Hr : flag RED w = false).
  { apply (absent_colour_flag board RED w); [now right | | exact Hscan].
    eapply Forall_impl; [|exact Hall]. intros v ->. discriminate. }
  unfold flag in Hy, Hr. simpl in Hy, Hr.
  unfold verdict. now rewrite Hy, Hr.
Qed.

Lemma check_victory_all_empty_witness :
  check_victory (empty_row ++ empty_row ++ empty_row ++ empty_row ++ [0; 0]) RED
  = Ok 0.
Proof.
  apply check_victory_all_empty. repeat constructor.
Defined.

(** X4.  The scans never take a flag down: a win that the horizontal
    scan has recorded for colour [p] is still recorded when the
    vertical and diagonal scans are over. *)
Theorem rows_win_is_kept (board : list Z) (p : Z) (w0 w : wins) :
  check_horizontals board (len board / COLS) no_wins = Ok w0 ->
  scan_board board = Ok w ->
  flag p w0 = true ->
  flag p w = true.
Proof.
  intros Hrows Hscan Hflag. exact (flag_survives board p w0 w Hflag Hrows Hscan).
Qed.

Lemma rows_win_is_kept_witness :
  check_horizontals double_win_board 4 no_wins = Ok (Wins true false)
  /\ scan_board double_win_board = Ok (Wins true true)
  /\ flag YELLOW (Wins true true) = true.
Proof.
  split; [reflexivity|]. split; [reflexivity|].
  apply (rows_win_is_kept double_win_board YELLOW (Wins true false) (Wins true true));
    reflexivity.
Defined.

(** ** The victory detector: what a scan records

    Once the subscripts are in range a scan loop is [feed] on the
    cells of its line. *)

Lemma range_In (lo hi x : Z) : lo <= x < hi -> In x (range lo hi).
Proof.
  intros Hx. unfold range. apply in_map_iff.
  exists (Z.to_nat (x - lo)). split; [lia|]. apply in_seq. lia.
Qed.

Lemma range_cons (lo hi : Z) : lo < hi -> range lo hi = lo :: range (lo + 1) hi.
Proof.
  intros Hlt. unfold range.
  replace (Z.to_nat (hi - lo)) with (S (Z.to_nat (hi - (lo + 1)))) by lia.
  cbn [seq map]. f_equal; [lia|].
  rewrite <- seq_shift, map_map. apply map_ext. intros k. lia.
Qed.

Lemma range_nil (lo hi : Z) : hi <= lo -> range lo hi = [].
Proof.
  intros Hle. unfold range.
  now replace (Z.to_nat (hi - lo)) with 0%nat by lia.
Qed.

Lemma getitem_nth (l : list Z) (i : Z) :
  0 <= i < len l -> getitem l i = Ok (nth (Z.to_nat i) l 0).
Proof.
  intros [Hlo Hhi]. unfold getitem.
  apply Z.leb_le in Hlo. apply Z.ltb_lt in Hhi. now rewrite Hlo, Hhi.
Qed.

Lemma for_each_feed (board : list Z) (idx cells : Z -> Z) (xs : list Z) :
  (forall x, In x xs -> getitem board (idx x) = Ok (cells x)) ->
  forall s,
    for_each xs (fun x t => piece <- getitem board (idx x) ;;
                            Ok (scan_cell x piece t)) s
    = Ok (feed cells xs s).
Proof.
  induction xs as [|x rest IH]; intros Hread s; simpl; [reflexivity|].
  rewrite (Hread x (or_introl eq_refl)). simpl.
  apply IH. intros y Hy. apply Hread. now right.
Qed.

Lemma feed_app (cells : Z -> Z) (xs ys : list Z) (s : streak * wins) :
  feed cells (xs ++ ys) s = feed cells ys (feed cells xs s).
Proof. unfold feed. apply fold_left_app. Qed.

Lemma feed_keeps_flag (cells : Z -> Z) (p : Z) (xs : list Z) :
  forall s, flag p (snd s) = true -> flag p (snd (feed cells xs s)) = true.
Proof.
  induction xs as [|x rest IH]; intros s Hs; simpl; [exact Hs|].
  apply IH. now apply scan_cell_keeps_flag.
Qed.

(** After a cell has been fed, the streak is of the colour of that cell. *)
Lemma feed_last_piece (cells : Z -> Z) (xs : list Z) (x : Z) (s : streak * wins) :
  streak_piece (fst (feed cells (xs ++ [x]) s)) = cells x.
Proof. rewrite feed_app. simpl. apply scan_cell_piece. Qed.

(** Cells of the colour of the streak leave everything as it is. *)
Lemma feed_same (cells : Z -> Z) (p : Z) (xs : list Z) :
  (forall x, In x xs -> cells x = p) ->
  forall s, streak_piece (fst s) = p -> feed cells xs s = s.
Proof.
  induction xs as [|x rest IH]; intros Hall s Hs; simpl; [reflexivity|].
  assert (Hx : scan_cell x (cells x) s = s).
  { destruct s as [k w]. unfold scan_cell. simpl in Hs.
    rewrite (Hall x (or_introl eq_refl)), Hs, Z.eqb_refl. reflexivity. }
  rewrite Hx. apply IH; [|exact Hs]. intros y Hy. apply Hall. now right.
Qed.

(** A run of [p] that starts at [x] after a streak of another colour:
    the streak becomes [(p, x)]. *)
Lemma feed_run (cells : Z -> Z) (p x : Z) (xs : list Z) (s : streak * wins) :
  streak_piece (fst s) <> p ->
  cells x = p ->
  (forall y, In y xs -> cells y = p) ->
  fst (feed cells (x :: xs) s) = Streak p x.
Proof.
  intros Hs Hx Hall. simpl.
  rewrite (feed_same cells p).
  - destruct s as [k w]. unfold scan_cell. simpl in Hs. rewrite Hx.
    destruct (Z.eqb_spec p (streak_piece k)); [congruence|reflexivity].
  - exact Hall.
  - rewrite scan_cell_piece. exact Hx.
Qed.

(** The loop test at a break after three: a streak [(p, c)] that meets
    another colour at [c + 3] records a win for [p]. *)
Lemma scan_cell_after_three (p c v : Z) (s : streak * wins) :
  p = YELLOW \/ p = RED ->
  fst s = Streak p c ->
  v <> p ->
  flag p (snd (scan_cell (c + 3) v s)) = true.
Proof.
  intros Hp Hs Hv. destruct s as [k w]. simpl in Hs. subst k.
  unfold scan_cell. simpl.
  destruct (Z.eqb_spec v p); [congruence|]. simpl.
  replace (c + 3 - c + 1 =? 4) with true by (symmetry; apply Z.eqb_eq; lia).
  destruct (Z.eqb_spec p 0) as [E|_].
  - destruct Hp as [Hp | Hp]; rewrite Hp in E; discriminate.
  - simpl. now apply record_win_sets.
Qed.

(** The test after the line: a trailing streak [(p, start)] whose
    extent evaluates to 4 records a win for [p]. *)
Lemma scan_end_records (p start extent : Z) (s : streak * wins) :
  p = YELLOW \/ p = RED ->
  fst s = Streak p start ->
  extent = 4 ->
  flag p (scan_end extent s) = true.
Proof.
  intros Hp Hs ->. destruct s as [k w]. simpl in Hs. subst k.
  unfold scan_end. simpl.
  destruct (Z.eqb_spec p 0) as [E|_].
  - destruct Hp as [Hp | Hp]; rewrite Hp in E; discriminate.
  - simpl. now apply record_win_sets.
Qed.

Lemma for_each_reaches {S : Type} (P : S -> Prop) (xs : list Z)
      (body : Z -> S -> result S) (x : Z) :
  In x xs ->
  (forall y s s', P s -> body y s = Ok s' -> P s') ->
  (forall s s', body x s = Ok s' -> P s') ->
  forall s s', for_each xs body s = Ok s' -> P s'.
Proof.
  intros Hin Hkeep Hset.
  induction xs as [|y rest IH]; intros s s'; simpl; [destruct Hin|].
  destruct (body y s) as [t| |] eqn:Hy; simpl; try discriminate.
  destruct Hin as [-> | Hin].
  - apply (for_each_keeps P).
    + intros z u u' _. apply Hkeep.
    + eapply Hset; eauto.
  - now apply IH.
Qed.

Lemma for_each_coord_reaches {S : Type} (P : S -> Prop) (cs : list (Z * Z))
      (body : Z -> Z -> S -> result S) (row col : Z) :
  In (row, col) cs ->
  (forall r c s s', P s -> body r c s = Ok s' -> P s') ->
  (forall s s', body row col s = Ok s' -> P s') ->
  forall s s', for_each_coord cs body s = Ok s' -> P s'.
Proof.
  intros Hin Hkeep Hset.
  induction cs as [|[r c] rest IH]; intros s s'; simpl; [destruct Hin|].
  destruct (body r c s) as [t| |] eqn:Hy; simpl; try discriminate.
  destruct Hin as [E | Hin].
  - inversion E; subst. apply (for_each_coord_keeps P).
    + apply Hkeep.
    + eapply Hset; eauto.
  - now apply IH.
Qed.

(** With flag [p] up, the answer is [p], or the non-mover when the
    other flag is up as well. *)
Lemma verdict_of_flag (p who_played : Z) (w : wins) :
  p = YELLOW \/ p = RED ->
  flag p w = true ->
  verdict w who_played = if flag (3 - p) w then 3 - who_played else p.
Proof.
  intros [-> | ->]; unfold flag, verdict; simpl; intros ->; simpl.
  - reflexivity.
  - rewrite andb_true_r. destruct (yellow_wins w); reflexivity.
Qed.

Section FlagKept.

Variable board : list Z.
Variable p : Z.

Lemma scan_row_keeps_flag (row : Z) (w w' : wins) :
  flag p w = true -> scan_row board row w = Ok w' -> flag p w' = true.
Proof.
  apply (scan_row_keeps board (fun _ => True) (fun s => flag p (snd s) = true)
           (fun w => flag p w = true)); auto.
  - intros pos v s _. apply scan_cell_keeps_flag.
  - intros extent s. apply scan_end_keeps_flag.
Qed.

Lemma scan_column_keeps_flag (num_rows col : Z) (w w' : wins) :
  flag p w = true -> scan_column board num_rows col w = Ok w' -> flag p w' = true.
Proof.
  apply (scan_column_keeps board (fun _ => True) (fun s => flag p (snd s) = true)
           (fun w => flag p w = true)); auto.
  - intros pos v s _. apply scan_cell_keeps_flag.
  - intros extent s. apply scan_end_keeps_flag.
Qed.

Lemma scan_up_left_keeps_flag (num_rows row col : Z) (w w' : wins) :
  flag p w = true -> scan_up_left board num_rows row col w = Ok w' -> flag p w' = true.
Proof.
  apply (scan_up_left_keeps board (fun _ => True) (fun s => flag p (snd s) = true)
           (fun w => flag p w = true)); auto.
  - intros pos v s _. apply scan_cell_keeps_flag.
  - intros extent s. apply scan_end_keeps_flag.
Qed.

Lemma scan_up_right_keeps_flag (num_rows row col : Z) (w w' : wins) :
  flag p w = true -> scan_up_right board num_rows row col w = Ok w' -> flag p w' = true.
Proof.
  apply (scan_up_right_keeps board (fun _ => True) (fun s => flag p (snd s) = true)
           (fun w => flag p w = true)); auto.
  - intros pos v s _. apply scan_cell_keeps_flag.
  - intros extent s. apply scan_end_keeps_flag.
Qed.

Lemma check_up_left_keeps_flag (num_rows : Z) (w w' : wins) :
  flag p w = true -> check_up_left board num_rows w = Ok w' -> flag p w' = true.
Proof.
  unfold check_up_left. apply (for_each_coord_keeps (fun w => flag p w = true)).
  intros row col s s'. apply scan_up_left_keeps_flag.
Qed.

Lemma check_up_right_keeps_flag (num_rows : Z) (w w' : wins) :
  flag p w = true -> check_up_right board num_rows w = Ok w' -> flag p w' = true.
Proof.
  unfold check_up_right. apply (for_each_coord_keeps (fun w => flag p w = true)).
  intros row col s s'. apply scan_up_right_keeps_flag.
Qed.

(** A row whose scan always ends with flag [p] up puts it up for good. *)
Lemma row_records (row : Z) (w : wins) :
  0 <= row < len board / COLS ->
  (forall w0 w1, scan_row board row w0 = Ok w1 -> flag p w1 = true) ->
  scan_board board = Ok w ->
  flag p w = true.
Proof.
  intros Hrow Hset Hscan.
  destruct (check_horizontals board (len board / COLS) no_wins) as [w0| |] eqn:Hrows;
    try (unfold scan_board in Hscan; rewrite Hrows in Hscan; discriminate).
  apply (flag_survives board p w0 w); [| exact Hrows | exact Hscan].
  revert Hrows. unfold check_horizontals.
  apply (for_each_reaches (fun w => flag p w = true) _ _ row).
  - now apply range_In.
  - intros y s s'. apply scan_row_keeps_flag.
  - exact Hset.
Qed.

(** The same for a column, on a board of four rows or more. *)
Lemma column_records (col : Z) (w : wins) :
  4 <= len board / COLS ->
  0 <= col < 7 ->
  (forall w0 w1, scan_column board (len board / COLS) col w0 = Ok w1 -> flag p w1 = true) ->
  scan_board board = Ok w ->
  flag p w = true.
Proof.
  intros Hhigh Hcol Hset. unfold scan_board.
  destruct (check_horizontals _ _ _) as [w0| |]; simpl; try discriminate.
  replace (len board / COLS >=? 4) with true by (symmetry; apply Z.geb_le; lia).
  destruct (check_verticals _ _ _) as [w1| |] eqn:H1; simpl; try discriminate.
  destruct (check_up_left _ _ _) as [w2| |] eqn:H2; simpl; try discriminate.
  intros H3.
  eapply check_up_right_keeps_flag; [|exact H3].
  eapply check_up_left_keeps_flag; [|exact H2].
  revert H1. unfold check_verticals.
  apply (for_each_reaches (fun w => flag p w = true) _ _ col).
  - now apply range_In.
  - intros y s s'. apply scan_column_keeps_flag.
  - exact Hset.
Qed.

End FlagKept.

Lemma recorded_answer (board : list Z) (p who_played : Z) (w : wins) :
  p = YELLOW \/ p = RED ->
  scan_board board = Ok w ->
  flag p w = true ->
  check_victory board who_played
  = Ok (if flag (3 - p) w then 3 - who_played else p).
Proof.
  intros Hp Hscan Hflag. unfold check_victory. rewrite Hscan. simpl.
  now rewrite (verdict_of_flag p who_played w Hp Hflag).
Qed.

Lemma getitem_cell (board : list Z) (row col : Z) :
  0 <= row < len board / COLS -> 0 <= col < 7 ->
  getitem board (row * 7 + col) = Ok (cell board row col).
Proof.
  intros Hrow Hcol. unfold cell. apply getitem_nth.
  pose proof (rows_fit_board board). lia.
Qed.

(** The scan of a row, on the seven cells of the row. *)
Lemma scan_row_feed (board : list Z) (row : Z) (w : wins) :
  0 <= row < len board / COLS ->
  scan_row board row w
  = Ok (scan_end
          (6 + 1 - index_of_streak_start
                     (fst (feed (cell board row) (range 0 COLS) (new_streak, w))))
          (feed (cell board row) (range 0 COLS) (new_streak, w))).
Proof.
  intros Hrow. unfold scan_row.
  rewrite (for_each_feed board (fun c => row * 7 + c) (cell board row)).
  - reflexivity.
  - intros x Hx. apply in_range in Hx. unfold COLS in Hx.
    now apply getitem_cell.
Qed.

Lemma Ok_inj {A : Type} (a b : A) : Ok a = Ok b -> a = b.
Proof. intros E. now inversion E. Qed.

(** A run of three [p] at [c .. c+2], after cells that do not leave a
    streak of [p] and before a cell of another colour, raises flag [p]. *)
Lemma feed_three (cells : Z -> Z) (p c : Z) (pre rest : list Z)
      (s : streak * wins) :
  p = YELLOW \/ p = RED ->
  streak_piece (fst (feed cells pre s)) <> p ->
  cells c = p -> cells (c + 1) = p -> cells (c + 2) = p -> cells (c + 3) <> p ->
  flag p (snd (feed cells (pre ++ [c; c + 1; c + 2] ++ [c + 3] ++ rest) s)) = true.
Proof.
  intros Hp Hpre H0 H1 H2 H3.
  rewrite !feed_app. apply feed_keeps_flag.
  unfold feed at 1. cbn [fold_left].
  apply scan_cell_after_three; [exact Hp | | exact H3].
  apply feed_run; [exact Hpre | exact H0 |].
  intros y [<- | [<- | []]]; assumption.
Qed.

(** X5.  A row that ends in four [p] (columns 3..6, with another value
    in column 2) is recorded for [p]: the answer is [p], or the
    non-mover when the other colour is recorded as well. *)
Theorem row_end_four_is_found (board : list Z) (row p who_played : Z) :
  p = YELLOW \/ p = RED ->
  0 <= row < len board / COLS ->
  cell board row 2 <> p ->
  cell board row 3 = p -> cell board row 4 = p ->
  cell board row 5 = p -> cell board row 6 = p ->
  exists w,
    scan_board board = Ok w
    /\ flag p w = true
    /\ check_victory board who_played
       = Ok (if flag (3 - p) w then 3 - who_played else p).
Proof.
  intros Hp Hrow H2 H3 H4 H5 H6.
  destruct (scan_board_total board) as [w Hscan]. exists w.
  assert (Hflag : flag p w = true).
  { apply (row_records board p row w Hrow); [|exact Hscan].
    intros w0 w1. rewrite (scan_row_feed board row w0 Hrow).
    intros E. apply Ok_inj in E. rewrite <- E.
    change (range 0 COLS) with (([0; 1] ++ [2]) ++ 3 :: [4; 5; 6]).
    rewrite feed_app.
    assert (Hrun : fst (feed (cell board row) (3 :: [4; 5; 6])
                          (feed (cell board row) ([0; 1] ++ [2]) (new_streak, w0)))
                   = Streak p 3).
    { apply feed_run; [| exact H3 |].
      - now rewrite feed_last_piece.
      - intros y [<- | [<- | [<- | []]]]; assumption. }
    apply (scan_end_records p 3); [exact Hp | exact Hrun |].
    rewrite Hrun. reflexivity. }
  split; [exact Hscan|]. split; [exact Hflag|].
  now apply recorded_answer.
Qed.

Lemma row_end_four_is_found_witness :
  exists w,
    scan_board [0; 0; 0; 2; 2; 2; 2] = Ok w
    /\ flag RED w = true
    /\ check_victory [0; 0; 0; 2; 2; 2; 2] RED
       = Ok (if flag (3 - RED) w then 3 - RED else RED).
Proof.
  apply (row_end_four_is_found [0; 0; 0; 2; 2; 2; 2] 0 RED RED);
    try reflexivity.
  - right. reflexivity.
  - split; [lia | reflexivity].
  - discriminate.
Defined.

(** X6.  Three [p] in a row count as four when the row goes on: if
    columns [col .. col+2] of a row hold [p], the cell before them (if
    any) and the cell at [col+3] do not, then [p] is recorded and the
    answer is [p], or the non-mover when the other colour is recorded
    as well. *)
Theorem row_three_is_taken_for_four (board : list Z) (row col p who_played : Z) :
  p = YELLOW \/ p = RED ->
  0 <= row < len board / COLS ->
  0 <= col <= 3 ->
  col = 0 \/ cell board row (col - 1) <> p ->
  cell board row col = p ->
  cell board row (col + 1) = p ->
  cell board row (col + 2) = p ->
  cell board row (col + 3) <> p ->
  exists w,
    scan_board board = Ok w
    /\ flag p w = true
    /\ check_victory board who_played
       = Ok (if flag (3 - p) w then 3 - who_played else p).
Proof.
  intros Hp Hrow Hcol Hbefore H0 H1 H2 H3.
  destruct (scan_board_total board) as [w Hscan]. exists w.
  assert (Hflag : flag p w = true).
  { apply (row_records board p row w Hrow); [|exact Hscan].
    intros w0 w1. rewrite (scan_row_feed board row w0 Hrow).
    intros E. apply Ok_inj in E. rewrite <- E. apply scan_end_keeps_flag.
    assert (Hstart : 0 <> p) by (destruct Hp as [-> | ->]; discriminate).
    assert (Hcases : col = 0 \/ col = 1 \/ col = 2 \/ col = 3) by lia.
    destruct Hcases as [-> | [-> | [-> | ->]]].
    - change (range 0 COLS)
        with ([] ++ [0; 0 + 1; 0 + 2] ++ [0 + 3] ++ [4; 5; 6]).
      now apply feed_three.
    - change (range 0 COLS)
        with (([] ++ [0]) ++ [1; 1 + 1; 1 + 2] ++ [1 + 3] ++ [5; 6]).
      apply feed_three; try assumption.
      rewrite feed_last_piece. destruct Hbefore as [E0 | Hb]; [discriminate|exact Hb].
    - change (range 0 COLS)
        with (([0] ++ [1]) ++ [2; 2 + 1; 2 + 2] ++ [2 + 3] ++ [6]).
      apply feed_three; try assumption.
      rewrite feed_last_piece. destruct Hbefore as [E0 | Hb]; [discriminate|exact Hb].
    - change (range 0 COLS)
        with (([0; 1] ++ [2]) ++ [3; 3 + 1; 3 + 2] ++ [3 + 3] ++ []).
      apply feed_three; try assumption.
      rewrite feed_last_piece. destruct Hbefore as [E0 | Hb]; [discriminate|exact Hb]. }
  split; [exact Hscan|]. split; [exact Hflag|].
  now apply recorded_answer.
Qed.

Lemma row_three_is_taken_for_four_witness :
  exists w,
    scan_board [1; 1; 1; 0; 0; 0; 0] = Ok w
    /\ flag YELLOW w = true
    /\ check_victory [1; 1; 1; 0; 0; 0; 0] RED
       = Ok (if flag (3 - YELLOW) w then 3 - RED else YELLOW).
Proof.
  apply (row_three_is_taken_for_four [1; 1; 1; 0; 0; 0; 0] 0 0 YELLOW RED);
    try reflexivity.
  - left. reflexivity.
  - split; [lia | reflexivity].
  - lia.
  - left. reflexivity.
  - discriminate.
Defined.

(** The scan of a column, on the cells of the column. *)
Lemma scan_column_feed (board : list Z) (col : Z) (w : wins) :
  0 <= col < 7 ->
  scan_column board (len board / COLS) col w
  = Ok (scan_end
          (5 + 1 - index_of_streak_start
                     (fst (feed (fun r => cell board r col)
                                (range 0 (len board / COLS)) (new_streak, w))))
          (feed (fun r => cell board r col)
                (range 0 (len board / COLS)) (new_streak, w))).
Proof.
  intros Hcol. unfold scan_column.
  rewrite (for_each_feed board (fun r => r * 7 + col) (fun r => cell board r col)).
  - reflexivity.
  - intros x Hx. apply in_range in Hx. now apply getitem_cell.
Qed.

(** X7.  The test after a column is written for six rows: on a board
    of four rows or more, a column that holds [p] from row 2 up to the
    top row, with another value at row 1, is recorded for [p].  On six
    rows that is a four at the top of the column; on four rows two
    pieces are enough. *)
Theorem column_run_from_row_two (board : list Z) (col p who_played : Z) :
  p = YELLOW \/ p = RED ->
  4 <= len board / COLS ->
  0 <= col < 7 ->
  cell board 1 col <> p ->
  (forall r, 2 <= r < len board / COLS -> cell board r col = p) ->
  exists w,
    scan_board board = Ok w
    /\ flag p w = true
    /\ check_victory board who_played
       = Ok (if flag (3 - p) w then 3 - who_played else p).
Proof.
  intros Hp Hhigh Hcol Hbelow Hrun.
  destruct (scan_board_total board) as [w Hscan]. exists w.
  assert (Hflag : flag p w = true).
  { apply (column_records board p col w Hhigh Hcol); [|exact Hscan].
    intros w0 w1. rewrite (scan_column_feed board col w0 Hcol).
    intros E. apply Ok_inj in E. rewrite <- E.
    rewrite (range_cons 0), (range_cons (0 + 1)), (range_cons (0 + 1 + 1)) by lia.
    change (0 :: 0 + 1 :: 0 + 1 + 1 :: range (0 + 1 + 1 + 1) (len board / COLS))
      with (([0] ++ [1]) ++ 2 :: range 3 (len board / COLS)).
    rewrite feed_app.
    assert (Hstreak :
              fst (feed (fun r => cell board r col)
                     (2 :: range 3 (len board / COLS))
                     (feed (fun r => cell board r col) ([0] ++ [1]) (new_streak, w0)))
              = Streak p 2).
    { apply feed_run.
      - now rewrite feed_last_piece.
      - apply Hrun. lia.
      - intros y Hy. apply in_range in Hy. apply Hrun. lia. }
    apply (scan_end_records p 2); [exact Hp | exact Hstreak |].
    rewrite Hstreak. reflexivity. }
  split; [exact Hscan|]. split; [exact Hflag|].
  now apply recorded_answer.
Qed.

(** Two YELLOW on top of two RED in the first column of a four-row board. *)
Lemma column_run_from_row_two_witness :
  exists w,
    scan_board [2; 0; 0; 0; 0; 0; 0;  2; 0; 0; 0; 0; 0; 0;
                1; 0; 0; 0; 0; 0; 0;  1; 0; 0; 0; 0; 0; 0] = Ok w
    /\ flag YELLOW w = true
    /\ check_victory [2; 0; 0; 0; 0; 0; 0;  2; 0; 0; 0; 0; 0; 0;
                      1; 0; 0; 0; 0; 0; 0;  1; 0; 0; 0; 0; 0; 0] RED
       = Ok (if flag (3 - YELLOW) w then 3 - RED else YELLOW).
Proof.
  apply (column_run_from_row_two
           [2; 0; 0; 0; 0; 0; 0;  2; 0; 0; 0; 0; 0; 0;
            1; 0; 0; 0; 0; 0; 0;  1; 0; 0; 0; 0; 0; 0] 0 YELLOW RED).
  - left. reflexivity.
  - vm_compute. discriminate.
  - lia.
  - vm_compute. discriminate.
  - intros r Hr. change (len _ / COLS) with 4 in Hr.
    assert (Hcases : r = 2 \/ r = 3) by lia.
    destruct Hcases as [-> | ->]; reflexivity.
Defined.

(** *** The diagonals *)

Lemma range_app (lo mid hi : Z) :
  lo <= mid <= hi -> range lo hi = range lo mid ++ range mid hi.
Proof.
  intros H. remember (Z.to_nat (mid - lo)) as k eqn:Hk. revert lo H Hk.
  induction k as [|k IH]; intros lo H Hk.
  - assert (mid = lo) by lia. subst mid.
    now rewrite (range_nil lo lo) by lia.
  - rewrite (range_cons lo hi), (range_cons lo mid) by lia.
    simpl. f_equal. apply IH; lia.
Qed.

Lemma range_down_In (hi lo x : Z) : lo < x <= hi -> In x (range_down hi lo).
Proof.
  intros Hx. unfold range_down. apply in_map_iff.
  exists (Z.to_nat (hi - x)). split; [lia|]. apply in_seq. lia.
Qed.

Lemma feed_cons (cells : Z -> Z) (x : Z) (xs : list Z) (s : streak * wins) :
  feed cells (x :: xs) s = feed cells xs (scan_cell x (cells x) s).
Proof. reflexivity. Qed.

(** A walk up and to the right reads the cells [(row + k, col + k)]
    for [k] below the length of the diagonal. *)
Lemma walk_up_right_feed (board : list Z) (row col : Z) :
  0 <= row -> 0 <= col ->
  forall (fuel : nat) (d : Z) (s : streak * wins),
    0 <= d <= Z.min (len board / COLS - row) (7 - col) ->
    (Z.to_nat (Z.min (len board / COLS - row) (7 - col) - d) < fuel)%nat ->
    walk_up_right fuel board (len board / COLS) row col d s
    = Ok (feed (fun k => cell board (row + k) (col + k))
               (range d (Z.min (len board / COLS - row) (7 - col))) s).
Proof.
  intros Hrow Hcol.
  induction fuel as [|fuel IH]; intros d s Hd Hfuel; [lia|].
  cbn [walk_up_right].
  destruct ((row + d <? len board / COLS) && (col + d <? COLS)) eqn:Hcond.
  - apply andb_true_iff in Hcond. destruct Hcond as [Hr Hc].
    apply Z.ltb_lt in Hr. apply Z.ltb_lt in Hc. unfold COLS in Hc.
    replace ((row + d) * 7 + col + d) with ((row + d) * 7 + (col + d)) by lia.
    rewrite getitem_cell by lia. cbn [bind].
    rewrite IH by lia.
    rewrite (range_cons d) by lia. now rewrite feed_cons.
  - apply andb_false_iff in Hcond.
    rewrite range_nil; [reflexivity|].
    destruct Hcond as [Hr | Hc].
    + apply Z.ltb_ge in Hr. lia.
    + apply Z.ltb_ge in Hc. unfold COLS in Hc. lia.
Qed.

(** A walk up and to the left reads the cells [(row + k, col - k)]. *)
Lemma walk_up_left_feed (board : list Z) (row col : Z) :
  0 <= row -> col <= 6 ->
  forall (fuel : nat) (d : Z) (s : streak * wins),
    0 <= d <= Z.min (len board / COLS - row) (col + 1) ->
    (Z.to_nat (Z.min (len board / COLS - row) (col + 1) - d) < fuel)%nat ->
    walk_up_left fuel board (len board / COLS) row col d s
    = Ok (feed (fun k => cell board (row + k) (col - k))
               (range d (Z.min (len board / COLS - row) (col + 1))) s).
Proof.
  intros Hrow Hcol.
  induction fuel as [|fuel IH]; intros d s Hd Hfuel; [lia|].
  cbn [walk_up_left].
  destruct ((row + d <? len board / COLS) && (col - d >=? 0)) eqn:Hcond.
  - apply andb_true_iff in Hcond. destruct Hcond as [Hr Hc].
    apply Z.ltb_lt in Hr. apply Z.geb_le in Hc.
    replace ((row + d) * 7 + col - d) with ((row + d) * 7 + (col - d)) by lia.
    rewrite getitem_cell by lia. cbn [bind].
    rewrite IH by lia.
    rewrite (range_cons d) by lia. now rewrite feed_cons.
  - apply andb_false_iff in Hcond.
    rewrite range_nil; [reflexivity|].
    destruct Hcond as [Hr | Hc].
    + apply Z.ltb_ge in Hr. lia.
    + assert (Hneg : col - d < 0).
      { destruct (Z.geb_spec (col - d) 0); [discriminate | lia]. }
      lia.
Qed.

Lemma rows_within (board : list Z) : 0 <= len board / COLS <= len board.
Proof.
  pose proof (rows_fit_board board) as Hfit.
  assert (0 <= len board / COLS)
    by (apply Z.div_pos; unfold len, COLS; lia).
  lia.
Qed.

(** The scan of a diagonal that reaches the top row, on its cells. *)
Lemma scan_up_right_feed (board : list Z) (row col : Z) (w : wins) :
  0 <= row <= len board / COLS -> 0 <= col ->
  len board / COLS - row <= 7 - col ->
  scan_up_right board (len board / COLS) row col w
  = Ok (scan_end
          (len board / COLS - row
           - index_of_streak_start
               (fst (feed (fun k => cell board (row + k) (col + k))
                          (range 0 (len board / COLS - row)) (new_streak, w))))
          (feed (fun k => cell board (row + k) (col + k))
                (range 0 (len board / COLS - row)) (new_streak, w))).
Proof.
  intros Hrow Hcol Htop. unfold scan_up_right.
  pose proof (rows_within board) as Hn.
  rewrite walk_up_right_feed;
    [| lia | lia | lia | unfold diagonal_fuel, len in *; lia].
  now replace (Z.min (len board / COLS - row) (7 - col))
    with (len board / COLS - row) by lia.
Qed.

Lemma scan_up_left_feed (board : list Z) (row col : Z) (w : wins) :
  0 <= row <= len board / COLS -> col <= 6 ->
  len board / COLS - row <= col + 1 ->
  scan_up_left board (len board / COLS) row col w
  = Ok (scan_end
          (len board / COLS - row
           - index_of_streak_start
               (fst (feed (fun k => cell board (row + k) (col - k))
                          (range 0 (len board / COLS - row)) (new_streak, w))))
          (feed (fun k => cell board (row + k) (col - k))
                (range 0 (len board / COLS - row)) (new_streak, w))).
Proof.
  intros Hrow Hcol Htop. unfold scan_up_left.
  pose proof (rows_within board) as Hn.
  rewrite walk_up_left_feed;
    [| lia | lia | lia | unfold diagonal_fuel, len in *; lia].
  now replace (Z.min (len board / COLS - row) (col + 1))
    with (len board / COLS - row) by lia.
Qed.

(** On a line of [L] cells scanned from a fresh streak, four [p] at the
    end, not preceded by [p], leave the streak [(p, L - 4)]. *)
Lemma feed_top_four (cells : Z -> Z) (p L : Z) (w : wins) :
  p = YELLOW \/ p = RED ->
  4 <= L ->
  (forall k, L - 4 <= k < L -> cells k = p) ->
  L = 4 \/ cells (L - 5) <> p ->
  fst (feed cells (range 0 L) (new_streak, w)) = Streak p (L - 4).
Proof.
  intros Hp HL Hfour Hprev.
  assert (Hstart : 0 <> p) by (destruct Hp as [-> | ->]; discriminate).
  destruct (Z.eq_dec L 4) as [-> | Hlong].
  - change (range 0 4) with (0 :: [1; 2; 3]). change (4 - 4) with 0.
    apply feed_run; [exact Hstart | apply Hfour; lia |].
    intros y [<- | [<- | [<- | []]]]; apply Hfour; lia.
  - destruct Hprev as [E | Hprev]; [contradiction|].
    rewrite (range_app 0 (L - 4) L) by lia.
    rewrite (range_app 0 (L - 5) (L - 4)) by lia.
    rewrite (range_cons (L - 5) (L - 4)) by lia.
    rewrite (range_nil (L - 5 + 1) (L - 4)) by lia.
    rewrite feed_app. rewrite (range_cons (L - 4) L) by lia.
    apply feed_run.
    + now rewrite feed_last_piece.
    + apply Hfour. lia.
    + intros y Hy. apply in_range in Hy. apply Hfour. lia.
Qed.

Lemma up_right_records (board : list Z) (p row col : Z) (w : wins) :
  4 <= len board / COLS ->
  In (row, col) (up_right_starts (len board / COLS)) ->
  (forall w0 w1,
      scan_up_right board (len board / COLS) row col w0 = Ok w1 ->
      flag p w1 = true) ->
  scan_board board = Ok w ->
  flag p w = true.
Proof.
  intros Hhigh Hin Hset. unfold scan_board.
  destruct (check_horizontals _ _ _) as [w0| |]; simpl; try discriminate.
  replace (len board / COLS >=? 4) with true by (symmetry; apply Z.geb_le; lia).
  destruct (check_verticals _ _ _) as [w1| |]; simpl; try discriminate.
  destruct (check_up_left _ _ _) as [w2| |]; simpl; try discriminate.
  unfold check_up_right.
  apply (for_each_coord_reaches (fun w => flag p w = true) _ _ row col).
  - exact Hin.
  - intros r c s s'. apply scan_up_right_keeps_flag.
  - exact Hset.
Qed.

Lemma up_left_records (board : list Z) (p row col : Z) (w : wins) :
  4 <= len board / COLS ->
  In (row, col) (up_left_starts (len board / COLS)) ->
  (forall w0 w1,
      scan_up_left board (len board / COLS) row col w0 = Ok w1 ->
      flag p w1 = true) ->
  scan_board board = Ok w ->
  flag p w = true.
Proof.
  intros Hhigh Hin Hset. unfold scan_board.
  destruct (check_horizontals _ _ _) as [w0| |]; simpl; try discriminate.
  replace (len board / COLS >=? 4) with true by (symmetry; apply Z.geb_le; lia).
  destruct (check_verticals _ _ _) as [w1| |]; simpl; try discriminate.
  destruct (check_up_left _ _ _) as [w2| |] eqn:H2; simpl; try discriminate.
  intros H3.
  eapply check_up_right_keeps_flag; [|exact H3].
  revert H2. unfold check_up_left.
  apply (for_each_coord_reaches (fun w => flag p w = true) _ _ row col).
  - exact Hin.
  - intros r c s s'. apply scan_up_left_keeps_flag.
  - exact Hset.
Qed.

(** Four [p] at the top end of a diagonal that reaches the top row. *)
Lemma up_right_top_four (board : list Z) (p row col : Z) (w0 w1 : wins) :
  p = YELLOW \/ p = RED ->
  0 <= row -> 0 <= col ->
  4 <= len board / COLS - row ->
  len board / COLS - row <= 7 - col ->
  (forall k, len board / COLS - row - 4 <= k < len board / COLS - row ->
             cell board (row + k) (col + k) = p) ->
  len board / COLS - row = 4
  \/ cell board (row + (len board / COLS - row - 5))
               (col + (len board / COLS - row - 5)) <> p ->
  scan_up_right board (len board / COLS) row col w0 = Ok w1 ->
  flag p w1 = true.
Proof.
  intros Hp Hrow Hcol HL Htop Hfour Hprev.
  rewrite scan_up_right_feed by lia.
  intros E. apply Ok_inj in E. rewrite <- E.
  pose proof (feed_top_four (fun k => cell board (row + k) (col + k)) p
                (len board / COLS - row) w0 Hp HL Hfour Hprev) as Hstreak.
  apply (scan_end_records p (len board / COLS - row - 4));
    [exact Hp | exact Hstreak |].
  rewrite Hstreak. cbn [index_of_streak_start]. lia.
Qed.

Lemma up_left_top_four (board : list Z) (p row col : Z) (w0 w1 : wins) :
  p = YELLOW \/ p = RED ->
  0 <= row -> col <= 6 ->
  4 <= len board / COLS - row ->
  len board / COLS - row <= col + 1 ->
  (forall k, len board / COLS - row - 4 <= k < len board / COLS - row ->
             cell board (row + k) (col - k) = p) ->
  len board / COLS - row = 4
  \/ cell board (row + (len board / COLS - row - 5))
               (col - (len board / COLS - row - 5)) <> p ->
  scan_up_left board (len board / COLS) row col w0 = Ok w1 ->
  flag p w1 = true.
Proof.
  intros Hp Hrow Hcol HL Htop Hfour Hprev.
  rewrite scan_up_left_feed by lia.
  intros E. apply Ok_inj in E. rewrite <- E.
  pose proof (feed_top_four (fun k => cell board (row + k) (col - k)) p
                (len board / COLS - row) w0 Hp HL Hfour Hprev) as Hstreak.
  apply (scan_end_records p (len board / COLS - row - 4));
    [exact Hp | exact Hstreak |].
  rewrite Hstreak. cbn [index_of_streak_start]. lia.
Qed.

(** Bring the two subscripts of the [cell] in the goal to a given form. *)
Ltac cell_at r c :=
  match goal with
  | |- context [cell _ ?x ?y] =>
      replace x with r by lia; replace y with c by lia
  end.

(** X8.  A four of [p] that ends in the top row on a diagonal rising to
    the right is recorded on every board of four rows or more: cells
    [(top - j, t - j)], [j = 0..3], hold [p] and the next cell down the
    diagonal, if there is one, does not. *)
Theorem rising_diagonal_top_four (board : list Z) (t p who_played : Z) :
  p = YELLOW \/ p = RED ->
  4 <= len board / COLS ->
  3 <= t <= 6 ->
  (forall j, 0 <= j <= 3 -> cell board (len board / COLS - 1 - j) (t - j) = p) ->
  len board / COLS = 4 \/ t = 3
  \/ cell board (len board / COLS - 5) (t - 4) <> p ->
  exists w,
    scan_board board = Ok w
    /\ flag p w = true
    /\ check_victory board who_played
       = Ok (if flag (3 - p) w then 3 - who_played else p).
Proof.
  intros Hp Hhigh Ht Hfour Hprev.
  destruct (scan_board_total board) as [w Hscan]. exists w.
  assert (Hflag : flag p w = true).
  { set (n := len board / COLS) in *.
    destruct (Z_le_gt_dec (n - 1) t) as [Hlow | Htall].
    - apply (up_right_records board p 0 (t - (n - 1)) w Hhigh);
        [| |exact Hscan].
      + unfold up_right_starts. apply in_or_app. left. apply in_map_iff.
        exists (t - (n - 1)). split; [reflexivity|].
        apply range_down_In. unfold COLS. lia.
      + intros w0 w1. apply up_right_top_four; fold n; try lia; try exact Hp.
        * intros k Hk. cell_at (n - 1 - (n - 1 - k)) (t - (n - 1 - k)).
          apply Hfour. lia.
        * destruct Hprev as [E | [E | Hprev]]; [left; lia | left; lia |].
          right. cell_at (n - 5) (t - 4). exact Hprev.
    - apply (up_right_records board p (n - 1 - t) 0 w Hhigh);
        [| |exact Hscan].
      + unfold up_right_starts. apply in_or_app. right. apply in_map_iff.
        exists (n - 1 - t). split; [reflexivity|].
        apply range_In. lia.
      + intros w0 w1. apply up_right_top_four; fold n; try lia; try exact Hp.
        * intros k Hk. cell_at (n - 1 - (t - k)) (t - (t - k)).
          apply Hfour. lia.
        * destruct Hprev as [E | [E | Hprev]]; [lia | left; lia |].
          right. cell_at (n - 5) (t - 4). exact Hprev. }
  split; [exact Hscan|]. split; [exact Hflag|].
  now apply recorded_answer.
Qed.

(** The RED diagonal of [double_win_board], from [(3,3)] down to [(0,0)]. *)
Lemma rising_diagonal_top_four_witness :
  exists w,
    scan_board double_win_board = Ok w
    /\ flag RED w = true
    /\ check_victory double_win_board YELLOW
       = Ok (if flag (3 - RED) w then 3 - YELLOW else RED).
Proof.
  apply (rising_diagonal_top_four double_win_board 3 RED YELLOW).
  - right. reflexivity.
  - vm_compute. discriminate.
  - lia.
  - intros j Hj. change (len double_win_board / COLS) with 4.
    assert (Hcases : j = 0 \/ j = 1 \/ j = 2 \/ j = 3) by lia.
    destruct Hcases as [-> | [-> | [-> | ->]]]; reflexivity.
  - left. reflexivity.
Defined.

(** X9.  The same for a diagonal rising to the left: a four of [p] at
    cells [(top - j, t + j)], [j = 0..3], with the next cell down the
    diagonal, if there is one, of another value, is recorded on every
    board of four rows or more. *)
Theorem falling_diagonal_top_four (board : list Z) (t p who_played : Z) :
  p = YELLOW \/ p = RED ->
  4 <= len board / COLS ->
  0 <= t <= 3 ->
  (forall j, 0 <= j <= 3 -> cell board (len board / COLS - 1 - j) (t + j) = p) ->
  len board / COLS = 4 \/ t = 3
  \/ cell board (len board / COLS - 5) (t + 4) <> p ->
  exists w,
    scan_board board = Ok w
    /\ flag p w = true
    /\ check_victory board who_played
       = Ok (if flag (3 - p) w then 3 - who_played else p).
Proof.
  intros Hp Hhigh Ht Hfour Hprev.
  destruct (scan_board_total board) as [w Hscan]. exists w.
  assert (Hflag : flag p w = true).
  { set (n := len board / COLS) in *.
    destruct (Z_le_gt_dec (t + n - 1) 6) as [Hlow | Htall].
    - apply (up_left_records board p 0 (t + n - 1) w Hhigh);
        [| |exact Hscan].
      + unfold up_left_starts. apply in_or_app. left. apply in_map_iff.
        exists (t + n - 1). split; [reflexivity|].
        apply range_In. unfold COLS. lia.
      + intros w0 w1. apply up_left_top_four; fold n; try lia; try exact Hp.
        * intros k Hk. cell_at (n - 1 - (n - 1 - k)) (t + (n - 1 - k)).
          apply Hfour. lia.
        * destruct Hprev as [E | [E | Hprev]]; [left; lia | left; lia |].
          right. cell_at (n - 5) (t + 4). exact Hprev.
    - apply (up_left_records board p (n - 7 + t) 6 w Hhigh);
        [| |exact Hscan].
      + unfold up_left_starts. apply in_or_app. right. apply in_map_iff.
        exists (n - 7 + t). split; [reflexivity|].
        apply range_In. lia.
      + intros w0 w1. apply up_left_top_four; fold n; try lia; try exact Hp.
        * intros k Hk. cell_at (n - 1 - (6 - t - k)) (t + (6 - t - k)).
          apply Hfour. lia.
        * destruct Hprev as [E | [E | Hprev]]; [lia | left; lia |].
          right. cell_at (n - 5) (t + 4). exact Hprev. }
  split; [exact Hscan|]. split; [exact Hflag|].
  now apply recorded_answer.
Qed.

(** YELLOW from [(3,0)] down to [(0,3)] on an otherwise empty board. *)
Lemma falling_diagonal_top_four_witness :
  exists w,
    scan_board [0; 0; 0; 1; 0; 0; 0;  0; 0; 1; 0; 0; 0; 0;
                0; 1; 0; 0; 0; 0; 0;  1; 0; 0; 0; 0; 0; 0] = Ok w
    /\ flag YELLOW w = true
    /\ check_victory [0; 0; 0; 1; 0; 0; 0;  0; 0; 1; 0; 0; 0; 0;
                      0; 1; 0; 0; 0; 0; 0;  1; 0; 0; 0; 0; 0; 0] YELLOW
       = Ok (if flag (3 - YELLOW) w then 3 - YELLOW else YELLOW).
Proof.
  apply (falling_diagonal_top_four
           [0; 0; 0; 1; 0; 0; 0;  0; 0; 1; 0; 0; 0; 0;
            0; 1; 0; 0; 0; 0; 0;  1; 0; 0; 0; 0; 0; 0] 0 YELLOW YELLOW).
  - left. reflexivity.
  - vm_compute. discriminate.
  - lia.
  - intros j Hj. change (len _ / COLS) with 4.
    assert (Hcases : j = 0 \/ j = 1 \/ j = 2 \/ j = 3) by lia.
    destruct Hcases as [-> | [-> | [-> | ->]]]; reflexivity.
  - left. reflexivity.
Defined.

(** *** Cells beyond the last full row *)

Lemma for_each_ext {S : Type} (xs : list Z) (f g : Z -> S -> result S) :
  (forall x s, In x xs -> f x s = g x s) ->
  forall s, for_each xs f s = for_each xs g s.
Proof.
  induction xs as [|x rest IH]; intros Hfg s; simpl; [reflexivity|].
  rewrite (Hfg x s (or_introl eq_refl)).
  destruct (g x s) as [t| |]; simpl; try reflexivity.
  apply IH. intros y u Hy. apply Hfg. now right.
Qed.

Lemma for_each_coord_ext {S : Type} (cs : list (Z * Z))
      (f g : Z -> Z -> S -> result S) :
  (forall row col s, In (row, col) cs -> f row col s = g row col s) ->
  forall s, for_each_coord cs f s = for_each_coord cs g s.
Proof.
  induction cs as [|[row col] rest IH]; intros Hfg s; simpl; [reflexivity|].
  rewrite (Hfg row col s (or_introl eq_refl)).
  destruct (g row col s) as [t| |]; simpl; try reflexivity.
  apply IH. intros r c u Hrc. apply Hfg. now right.
Qed.

Lemma feed_ext (c1 c2 : Z -> Z) (xs : list Z) :
  (forall x, In x xs -> c1 x = c2 x) ->
  forall s, feed c1 xs s = feed c2 xs s.
Proof.
  induction xs as [|x rest IH]; intros Hc s; [reflexivity|].
  rewrite !feed_cons, (Hc x (or_introl eq_refl)).
  apply IH. intros y Hy. apply Hc. now right.
Qed.

(** The scan of any diagonal that starts on the board, on its cells. *)
Lemma scan_up_right_cells (board : list Z) (row col : Z) (w : wins) :
  0 <= row <= len board / COLS -> 0 <= col <= 7 ->
  scan_up_right board (len board / COLS) row col w
  = Ok (scan_end
          (len board / COLS - row
           - index_of_streak_start
               (fst (feed (fun k => cell board (row + k) (col + k))
                          (range 0 (Z.min (len board / COLS - row) (7 - col)))
                          (new_streak, w))))
          (feed (fun k => cell board (row + k) (col + k))
                (range 0 (Z.min (len board / COLS - row) (7 - col)))
                (new_streak, w))).
Proof.
  intros Hrow Hcol. unfold scan_up_right.
  pose proof (rows_within board) as Hn.
  now rewrite walk_up_right_feed;
    [| lia | lia | lia | unfold diagonal_fuel, len in *; lia].
Qed.

Lemma scan_up_left_cells (board : list Z) (row col : Z) (w : wins) :
  0 <= row <= len board / COLS -> -1 <= col <= 6 ->
  scan_up_left board (len board / COLS) row col w
  = Ok (scan_end
          (len board / COLS - row
           - index_of_streak_start
               (fst (feed (fun k => cell board (row + k) (col - k))
                          (range 0 (Z.min (len board / COLS - row) (col + 1)))
                          (new_streak, w))))
          (feed (fun k => cell board (row + k) (col - k))
                (range 0 (Z.min (len board / COLS - row) (col + 1)))
                (new_streak, w))).
Proof.
  intros Hrow Hcol. unfold scan_up_left.
  pose proof (rows_within board) as Hn.
  now rewrite walk_up_left_feed;
    [| lia | lia | lia | unfold diagonal_fuel, len in *; lia].
Qed.

Section RaggedTail.

Variables board tail : list Z.
Hypothesis same_rows : len (board ++ tail) / COLS = len board / COLS.

Lemma cell_app (row col : Z) :
  0 <= row < len board / COLS -> 0 <= col < 7 ->
  cell (board ++ tail) row col = cell board row col.
Proof.
  intros Hrow Hcol. unfold cell. apply app_nth1.
  pose proof (rows_fit_board board). unfold len in *. lia.
Qed.

Lemma scan_row_app (row : Z) (w : wins) :
  0 <= row < len board / COLS ->
  scan_row (board ++ tail) row w = scan_row board row w.
Proof.
  intros Hrow.
  rewrite (scan_row_feed board row w Hrow).
  rewrite (scan_row_feed (board ++ tail) row w) by (rewrite same_rows; exact Hrow).
  rewrite (feed_ext (cell (board ++ tail) row) (cell board row)); [reflexivity|].
  intros x Hx. apply in_range in Hx. unfold COLS in Hx. now apply cell_app.
Qed.

Lemma scan_column_app (col : Z) (w : wins) :
  0 <= col < 7 ->
  scan_column (board ++ tail) (len board / COLS) col w
  = scan_column board (len board / COLS) col w.
Proof.
  intros Hcol.
  rewrite (scan_column_feed board col w Hcol).
  rewrite <- same_rows at 1.
  rewrite (scan_column_feed (board ++ tail) col w Hcol).
  rewrite same_rows.
  rewrite (feed_ext (fun r => cell (board ++ tail) r col) (fun r => cell board r col));
    [reflexivity|].
  intros x Hx. apply in_range in Hx. now apply cell_app.
Qed.

Lemma scan_up_right_app (row col : Z) (w : wins) :
  0 <= row <= len board / COLS -> 0 <= col <= 7 ->
  scan_up_right (board ++ tail) (len board / COLS) row col w
  = scan_up_right board (len board / COLS) row col w.
Proof.
  intros Hrow Hcol.
  rewrite (scan_up_right_cells board row col w Hrow Hcol).
  rewrite <- same_rows at 1.
  rewrite (scan_up_right_cells (board ++ tail) row col w)
    by (rewrite ?same_rows; lia).
  rewrite same_rows.
  rewrite (feed_ext (fun k => cell (board ++ tail) (row + k) (col + k))
             (fun k => cell board (row + k) (col + k)));
    [reflexivity|].
  intros x Hx. apply in_range in Hx. apply cell_app; lia.
Qed.

Lemma scan_up_left_app (row col : Z) (w : wins) :
  0 <= row <= len board / COLS -> -1 <= col <= 6 ->
  scan_up_left (board ++ tail) (len board / COLS) row col w
  = scan_up_left board (len board / COLS) row col w.
Proof.
  intros Hrow Hcol.
  rewrite (scan_up_left_cells board row col w Hrow Hcol).
  rewrite <- same_rows at 1.
  rewrite (scan_up_left_cells (board ++ tail) row col w)
    by (rewrite ?same_rows; lia).
  rewrite same_rows.
  rewrite (feed_ext (fun k => cell (board ++ tail) (row + k) (col - k))
             (fun k => cell board (row + k) (col - k)));
    [reflexivity|].
  intros x Hx. apply in_range in Hx. apply cell_app; lia.
Qed.

Lemma scan_board_app : scan_board (board ++ tail) = scan_board board.
Proof.
  unfold scan_board. rewrite same_rows.
  pose proof (rows_within board) as Hn.
  assert (Hh : forall w, check_horizontals (board ++ tail) (len board / COLS) w
                         = check_horizontals board (len board / COLS) w).
  { intros w. unfold check_horizontals. apply for_each_ext.
    intros row s Hrow. apply in_range in Hrow. now apply scan_row_app. }
  assert (Hv : forall w, check_verticals (board ++ tail) (len board / COLS) w
                         = check_verticals board (len board / COLS) w).
  { intros w. unfold check_verticals. apply for_each_ext.
    intros col s Hcol. apply in_range in Hcol. now apply scan_column_app. }
  assert (Hl : forall w, check_up_left (board ++ tail) (len board / COLS) w
                         = check_up_left board (len board / COLS) w).
  { intros w. unfold check_up_left. apply for_each_coord_ext.
    intros row col s Hin. unfold up_left_starts, COLS in Hin.
    apply in_app_iff in Hin. rewrite !in_map_iff in Hin.
    destruct Hin as [(x & E & Hx) | (x & E & Hx)]; inversion E; subst;
      apply in_range in Hx; apply scan_up_left_app; unfold COLS in *; lia. }
  assert (Hr : forall w, check_up_right (board ++ tail) (len board / COLS) w
                         = check_up_right board (len board / COLS) w).
  { intros w. unfold check_up_right. apply for_each_coord_ext.
    intros row col s Hin. unfold up_right_starts, COLS in Hin.
    apply in_app_iff in Hin. rewrite !in_map_iff in Hin.
    destruct Hin as [(x & E & Hx) | (x & E & Hx)]; inversion E; subst;
      [apply in_range_down in Hx | apply in_range in Hx];
      apply scan_up_right_app; unfold COLS in *; lia. }
  rewrite Hh.
  destruct (check_horizontals board (len board / COLS) no_wins) as [w0| |];
    simpl; try reflexivity.
  destruct (len board / COLS >=? 4); [|reflexivity].
  rewrite Hv.
  destruct (check_verticals board (len board / COLS) w0) as [w1| |];
    simpl; try reflexivity.
  rewrite Hl.
  destruct (check_up_left board (len board / COLS) w1) as [w2| |];
    simpl; try reflexivity.
  apply Hr.
Qed.

End RaggedTail.

(** X10.  Cells appended to a board without completing another row of
    seven do not change the answer: [check_victory] reads the first
    [7 * (len(board) // 7)] cells only. *)
Theorem check_victory_ignores_partial_row (board tail : list Z) (who_played : Z) :
  len (board ++ tail) / COLS = len board / COLS ->
  check_victory (board ++ tail) who_played = check_victory board who_played.
Proof.
  intros Hrows. unfold check_victory.
  now rewrite (scan_board_app board tail Hrows).
Qed.

Lemma check_victory_ignores_partial_row_witness :
  check_victory ([0; 0; 0; 1; 1; 1; 1] ++ [2; 2; 2; 2; 0; 0]) RED
  = check_victory [0; 0; 0; 1; 1; 1; 1] RED.
Proof.
  apply (check_victory_ignores_partial_row [0; 0; 0; 1; 1; 1; 1] [2; 2; 2; 2; 0; 0] RED).
  reflexivity.
Defined.

(** ** The victory detector: exactly what a scan records *)

Lemma feed_range_snoc (cells : Z -> Z) (k : nat) (s : streak * wins) :
  feed cells (range 0 (Z.of_nat (S k))) s
  = scan_cell (Z.of_nat k) (cells (Z.of_nat k))
              (feed cells (range 0 (Z.of_nat k)) s).
Proof.
  rewrite (range_app 0 (Z.of_nat k) (Z.of_nat (S k))) by lia.
  rewrite (range_cons (Z.of_nat k)) by lia.
  rewrite (range_nil (Z.of_nat k + 1)) by lia.
  now rewrite feed_app.
Qed.

Section LineScan.

Variable cells : Z -> Z.
Variable p : Z.
Variable w0 : wins.
Hypothesis p_colour : p = YELLOW \/ p = RED.

(** The streak after [m] cells: it began at [i], every cell since is
    of its colour and the cell before is not; a flag that is up was
    up before the line or comes from a run of three broken on it. *)
Lemma feed_invariant (k : nat) :
  let s := feed cells (range 0 (Z.of_nat k)) (new_streak, w0) in
  let c := streak_piece (fst s) in
  let i := index_of_streak_start (fst s) in
  0 <= i
  /\ (i < Z.of_nat k \/ (k = 0%nat /\ i = 0 /\ c = 0))
  /\ (forall j, i <= j < Z.of_nat k -> cells j = c)
  /\ (i = 0 \/ cells (i - 1) <> c)
  /\ (flag p (snd s) = true ->
      flag p w0 = true
      \/ exists c0, 0 <= c0 /\ c0 + 3 < Z.of_nat k /\ three_then_break cells p c0).
Proof.
  induction k as [|k IH].
  - cbn. repeat split; auto; try (intros; lia).
  - rewrite feed_range_snoc.
    destruct (feed cells (range 0 (Z.of_nat k)) (new_streak, w0)) as [[c i] w].
    cbn [fst snd streak_piece index_of_streak_start] in IH.
    destruct IH as (Hi & Hlt & Hrun & Hbefore & Hflag).
    set (m := Z.of_nat k) in *.
    assert (Hm : Z.of_nat (S k) = m + 1) by (unfold m; lia).
    rewrite Hm. unfold scan_cell.
    cbn [fst snd streak_piece index_of_streak_start].
    destruct (Z.eqb_spec (cells m) c) as [Heq | Hneq];
      cbn [negb fst snd streak_piece index_of_streak_start].
    + repeat split.
      * exact Hi.
      * left. lia.
      * intros j Hj. destruct (Z.eq_dec j m) as [-> | Hjm];
          [exact Heq | apply Hrun; lia].
      * exact Hbefore.
      * intros Hup. destruct (Hflag Hup) as [H0 | (c0 & H1 & H2 & H3)];
          [now left | right; exists c0; split; [exact H1 | split; [lia | exact H3]]].
    + repeat split.
      * lia.
      * left. lia.
      * intros j Hj. now replace j with m by lia.
      * destruct (Z.eq_dec m 0) as [E0 | Hpos]; [now left | right].
        rewrite (Hrun (m - 1)) by lia. congruence.
      * destruct (negb (c =? 0) && (m - i + 1 =? 4)) eqn:Htest.
        -- apply andb_true_iff in Htest. destruct Htest as [_ Hlen].
           apply Z.eqb_eq in Hlen.
           destruct (Z.eq_dec c p) as [-> | Hcp].
           ++ intros _. right. exists i.
              split; [lia|]. split; [lia|]. unfold three_then_break.
              split; [exact Hbefore|].
              split; [apply Hrun; lia|].
              split; [apply Hrun; lia|].
              split; [apply Hrun; lia|].
              now replace (i + 3) with m by lia.
           ++ rewrite record_win_other by exact Hcp.
              intros Hup. destruct (Hflag Hup) as [H0 | (c0 & H1 & H2 & H3)];
                [now left | right; exists c0; split; [exact H1 | split; [lia | exact H3]]].
        -- intros Hup. destruct (Hflag Hup) as [H0 | (c0 & H1 & H2 & H3)];
             [now left | right; exists c0; split; [exact H1 | split; [lia | exact H3]]].
Qed.

(** Whatever raises flag [p] on a line is a [line_hit]. *)
Lemma line_origin (m extent : Z) :
  0 <= m ->
  flag p (scan_end
            (extent - index_of_streak_start
                        (fst (feed cells (range 0 m) (new_streak, w0))))
            (feed cells (range 0 m) (new_streak, w0))) = true ->
  flag p w0 = true \/ line_hit cells p m extent.
Proof.
  intros Hm.
  pose proof (feed_invariant (Z.to_nat m)) as Hinv.
  rewrite Z2Nat.id in Hinv by exact Hm.
  destruct (feed cells (range 0 m) (new_streak, w0)) as [[c i] w].
  cbn [fst snd streak_piece index_of_streak_start] in *.
  destruct Hinv as (Hi & Hlt & Hrun & Hbefore & Hflag).
  unfold scan_end. cbn [streak_piece].
  assert (Hold : flag p w = true -> flag p w0 = true \/ line_hit cells p m extent).
  { intros Hup. destruct (Hflag Hup) as [H0 | Hthree]; [now left|].
    right. left. exact Hthree. }
  destruct (negb (c =? 0) && (extent - i =? 4)) eqn:Htest; [|exact Hold].
  apply andb_true_iff in Htest. destruct Htest as [Hc Hlen].
  apply Z.eqb_eq in Hlen. apply negb_true_iff in Hc. apply Z.eqb_neq in Hc.
  destruct (Z.eq_dec c p) as [-> | Hcp].
  - intros _. right. right. exists i.
    split; [|split; [exact Hlen | split; [exact Hbefore | exact Hrun]]].
    destruct Hlt as [Hlt | (_ & _ & E0)]; [lia | contradiction].
  - now rewrite record_win_other by exact Hcp.
Qed.

(** The cells before position [c] leave no streak of [p] when the cell
    at [c - 1] is not [p]. *)
Lemma feed_before (c : Z) :
  0 <= c ->
  c = 0 \/ cells (c - 1) <> p ->
  streak_piece (fst (feed cells (range 0 c) (new_streak, w0))) <> p.
Proof.
  intros Hc Hbefore. destruct (Z.eq_dec c 0) as [-> | Hpos].
  - cbn. destruct p_colour as [-> | ->]; discriminate.
  - destruct Hbefore as [E0 | Hb]; [contradiction|].
    rewrite (range_app 0 (c - 1) c) by lia.
    rewrite (range_cons (c - 1) c) by lia.
    rewrite (range_nil (c - 1 + 1) c) by lia.
    now rewrite feed_last_piece.
Qed.

(** Every [line_hit] raises flag [p]. *)
Lemma line_records (m extent : Z) :
  line_hit cells p m extent ->
  flag p (scan_end
            (extent - index_of_streak_start
                        (fst (feed cells (range 0 m) (new_streak, w0))))
            (feed cells (range 0 m) (new_streak, w0))) = true.
Proof.
  intros [(c & Hc & Hcm & Hbefore & H0 & H1 & H2 & H3)
         | (i & Hi & Hlen & Hbefore & Hrun)].
  - apply scan_end_keeps_flag.
    rewrite (range_app 0 c m) by lia.
    rewrite (range_cons c), (range_cons (c + 1)), (range_cons (c + 1 + 1)),
      (range_cons (c + 1 + 1 + 1)) by lia.
    replace (c + 1 + 1) with (c + 2) by lia.
    replace (c + 2 + 1) with (c + 3) by lia.
    change (range 0 c ++ c :: c + 1 :: c + 2 :: c + 3 :: range (c + 3 + 1) m)
      with (range 0 c ++ [c; c + 1; c + 2] ++ [c + 3] ++ range (c + 3 + 1) m).
    apply feed_three; auto. now apply feed_before.
  - rewrite (range_app 0 i m) by lia.
    rewrite (range_cons i m) by lia.
    rewrite feed_app.
    assert (Hstreak :
              fst (feed cells (i :: range (i + 1) m)
                     (feed cells (range 0 i) (new_streak, w0)))
              = Streak p i).
    { apply feed_run.
      - apply feed_before; [lia | exact Hbefore].
      - apply Hrun. lia.
      - intros y Hy. apply in_range in Hy. apply Hrun. lia. }
    apply (scan_end_records p i); [exact p_colour | exact Hstreak |].
    rewrite Hstreak. cbn [index_of_streak_start]. exact Hlen.
Qed.

End LineScan.

(** A line raises flag [p] exactly when the flag was up or the line is
    a [line_hit]. *)
Lemma line_iff (cells : Z -> Z) (p : Z) (w0 : wins) (m extent : Z) :
  p = YELLOW \/ p = RED ->
  0 <= m ->
  flag p (scan_end
            (extent - index_of_streak_start
                        (fst (feed cells (range 0 m) (new_streak, w0))))
            (feed cells (range 0 m) (new_streak, w0))) = true
  <-> flag p w0 = true \/ line_hit cells p m extent.
Proof.
  intros Hp Hm. split.
  - now apply line_origin.
  - intros [Hup | Hhit].
    + apply scan_end_keeps_flag. now apply feed_keeps_flag.
    + now apply line_records.
Qed.

Lemma for_each_origin (p : Z) (xs : list Z) (body : Z -> wins -> result wins)
      (hit : Z -> Prop) :
  (forall x w w', In x xs -> body x w = Ok w' ->
                  (flag p w' = true <-> flag p w = true \/ hit x)) ->
  forall w w', for_each xs body w = Ok w' ->
               (flag p w' = true
                <-> flag p w = true \/ exists x, In x xs /\ hit x).
Proof.
  induction xs as [|x rest IH]; intros Hbody w w'; simpl.
  - intros E. apply Ok_inj in E. subst w'. split; [now left|].
    intros [Hup | (x & [] & _)]. exact Hup.
  - destruct (body x w) as [w1| |] eqn:Hx; simpl; try discriminate.
    intros Hrest.
    rewrite (IH (fun y u u' Hy => Hbody y u u' (or_intror Hy)) w1 w' Hrest).
    rewrite (Hbody x w w1 (or_introl eq_refl) Hx).
    split.
    + intros [[Hup | Hhit] | (y & Hy & Hhit)].
      * now left.
      * right. exists x. split; [now left | exact Hhit].
      * right. exists y. split; [now right | exact Hhit].
    + intros [Hup | (y & [<- | Hy] & Hhit)].
      * left. now left.
      * left. now right.
      * right. exists y. now split.
Qed.

Lemma for_each_coord_origin (p : Z) (cs : list (Z * Z))
      (body : Z -> Z -> wins -> result wins) (hit : Z -> Z -> Prop) :
  (forall row col w w', In (row, col) cs -> body row col w = Ok w' ->
                        (flag p w' = true <-> flag p w = true \/ hit row col)) ->
  forall w w', for_each_coord cs body w = Ok w' ->
               (flag p w' = true
                <-> flag p w = true
                    \/ exists row col, In (row, col) cs /\ hit row col).
Proof.
  induction cs as [|[r c] rest IH]; intros Hbody w w'; simpl.
  - intros E. apply Ok_inj in E. subst w'. split; [now left|].
    intros [Hup | (x & y & [] & _)]. exact Hup.
  - destruct (body r c w) as [w1| |] eqn:Hx; simpl; try discriminate.
    intros Hrest.
    rewrite (IH (fun y z u u' Hy => Hbody y z u u' (or_intror Hy)) w1 w' Hrest).
    rewrite (Hbody r c w w1 (or_introl eq_refl) Hx).
    split.
    + intros [[Hup | Hhit] | (y & z & Hy & Hhit)].
      * now left.
      * right. exists r, c. split; [now left | exact Hhit].
      * right. exists y, z. split; [now right | exact Hhit].
    + intros [Hup | (y & z & [E | Hy] & Hhit)].
      * left. now left.
      * inversion E; subst. left. now right.
      * right. exists y, z. now split.
Qed.

Section BoardScan.

Variable board : list Z.
Variable p : Z.
Hypothesis p_colour : p = YELLOW \/ p = RED.

Lemma scan_row_iff (row : Z) (w w' : wins) :
  0 <= row < len board / COLS ->
  scan_row board row w = Ok w' ->
  (flag p w' = true
   <-> flag p w = true \/ line_hit (cell board row) p 7 7).
Proof.
  intros Hrow. rewrite (scan_row_feed board row w Hrow).
  intros E. apply Ok_inj in E. rewrite <- E.
  change (6 + 1) with 7. change (range 0 COLS) with (range 0 7).
  apply line_iff; [exact p_colour | lia].
Qed.

Lemma scan_column_iff (col : Z) (w w' : wins) :
  0 <= col < 7 ->
  scan_column board (len board / COLS) col w = Ok w' ->
  (flag p w' = true
   <-> flag p w = true
       \/ line_hit (fun r => cell board r col) p (len board / COLS) 6).
Proof.
  intros Hcol. rewrite (scan_column_feed board col w Hcol).
  intros E. apply Ok_inj in E. rewrite <- E.
  change (5 + 1) with 6.
  apply line_iff; [exact p_colour | apply rows_within].
Qed.

Lemma scan_up_left_iff (row col : Z) (w w' : wins) :
  0 <= row <= len board / COLS -> -1 <= col <= 6 ->
  scan_up_left board (len board / COLS) row col w = Ok w' ->
  (flag p w' = true
   <-> flag p w = true
       \/ line_hit (fun k => cell board (row + k) (col - k)) p
                   (Z.min (len board / COLS - row) (col + 1))
                   (len board / COLS - row)).
Proof.
  intros Hrow Hcol. rewrite (scan_up_left_cells board row col w Hrow Hcol).
  intros E. apply Ok_inj in E. rewrite <- E.
  apply line_iff; [exact p_colour | lia].
Qed.

Lemma scan_up_right_iff (row col : Z) (w w' : wins) :
  0 <= row <= len board / COLS -> 0 <= col <= 7 ->
  scan_up_right board (len board / COLS) row col w = Ok w' ->
  (flag p w' = true
   <-> flag p w = true
       \/ line_hit (fun k => cell board (row + k) (col + k)) p
                   (Z.min (len board / COLS - row) (7 - col))
                   (len board / COLS - row)).
Proof.
  intros Hrow Hcol. rewrite (scan_up_right_cells board row col w Hrow Hcol).
  intros E. apply Ok_inj in E. rewrite <- E.
  apply line_iff; [exact p_colour | lia].
Qed.

Lemma check_horizontals_iff (w w' : wins) :
  check_horizontals board (len board / COLS) w = Ok w' ->
  (flag p w' = true
   <-> flag p w = true
       \/ exists row, 0 <= row < len board / COLS
                      /\ line_hit (cell board row) p 7 7).
Proof.
  intros Hscan. unfold check_horizontals in Hscan.
  rewrite (for_each_origin p _ _ (fun row => line_hit (cell board row) p 7 7)
             (fun row u u' Hin => scan_row_iff row u u' (in_range _ _ _ Hin))
             w w' Hscan).
  split; (intros [Hup | (row & Hrow & Hhit)]; [now left | right; exists row]).
  - split; [now apply in_range | exact Hhit].
  - split; [now apply range_In | exact Hhit].
Qed.

Lemma check_verticals_iff (w w' : wins) :
  check_verticals board (len board / COLS) w = Ok w' ->
  (flag p w' = true
   <-> flag p w = true
       \/ exists col, 0 <= col < 7
                      /\ line_hit (fun r => cell board r col) p
                                  (len board / COLS) 6).
Proof.
  intros Hscan. unfold check_verticals in Hscan.
  rewrite (for_each_origin p _ _
             (fun col => line_hit (fun r => cell board r col) p
                                  (len board / COLS) 6)
             (fun col u u' Hin => scan_column_iff col u u' (in_range _ _ _ Hin))
             w w' Hscan).
  split; (intros [Hup | (col & Hcol & Hhit)]; [now left | right; exists col]).
  - split; [now apply in_range in Hcol | exact Hhit].
  - split; [now apply range_In | exact Hhit].
Qed.

Lemma up_left_starts_bounds (row col : Z) :
  In (row, col) (up_left_starts (len board / COLS)) ->
  0 <= row <= len board / COLS /\ -1 <= col <= 6.
Proof.
  pose proof (rows_within board) as Hn.
  unfold up_left_starts, COLS in *. rewrite in_app_iff, !in_map_iff.
  intros [(x & E & Hx) | (x & E & Hx)]; inversion E; subst;
    apply in_range in Hx; lia.
Qed.

Lemma up_right_starts_bounds (row col : Z) :
  In (row, col) (up_right_starts (len board / COLS)) ->
  0 <= row <= len board / COLS /\ 0 <= col <= 7.
Proof.
  pose proof (rows_within board) as Hn.
  unfold up_right_starts, COLS in *. rewrite in_app_iff, !in_map_iff.
  intros [(x & E & Hx) | (x & E & Hx)]; inversion E; subst;
    [apply in_range_down in Hx | apply in_range in Hx]; lia.
Qed.

Lemma check_up_left_iff (w w' : wins) :
  check_up_left board (len board / COLS) w = Ok w' ->
  (flag p w' = true
   <-> flag p w = true
       \/ exists row col,
            In (row, col) (up_left_starts (len board / COLS))
            /\ line_hit (fun k => cell board (row + k) (col - k)) p
                        (Z.min (len board / COLS - row) (col + 1))
                        (len board / COLS - row)).
Proof.
  unfold check_up_left. apply for_each_coord_origin.
  intros row col u u' Hin. apply up_left_starts_bounds in Hin.
  now apply scan_up_left_iff.
Qed.

Lemma check_up_right_iff (w w' : wins) :
  check_up_right board (len board / COLS) w = Ok w' ->
  (flag p w' = true
   <-> flag p w = true
       \/ exists row col,
            In (row, col) (up_right_starts (len board / COLS))
            /\ line_hit (fun k => cell board (row + k) (col + k)) p
                        (Z.min (len board / COLS - row) (7 - col))
                        (len board / COLS - row)).
Proof.
  unfold check_up_right. apply for_each_coord_origin.
  intros row col u u' Hin. apply up_right_starts_bounds in Hin.
  now apply scan_up_right_iff.
Qed.

(** The flag of [p] is up at the end exactly on a [board_hit]. *)
Lemma scan_board_iff (w : wins) :
  scan_board board = Ok w -> (flag p w = true <-> board_hit board p).
Proof.
  assert (Hnone : flag p no_wins = false)
    by (destruct p_colour as [-> | ->]; reflexivity).
  unfold scan_board, board_hit.
  destruct (check_horizontals _ _ _) as [w0| |] eqn:H0; simpl; try discriminate.
  pose proof (check_horizontals_iff no_wins w0 H0) as Hrows.
  rewrite Hnone in Hrows.
  destruct (len board / COLS >=? 4) eqn:Hguard.
  - apply Z.geb_le in Hguard.
    destruct (check_verticals _ _ _) as [w1| |] eqn:H1; simpl; try discriminate.
    destruct (check_up_left _ _ _) as [w2| |] eqn:H2; simpl; try discriminate.
    intros H3.
    rewrite (check_up_right_iff w2 w H3), (check_up_left_iff w1 w2 H2),
      (check_verticals_iff w0 w1 H1), Hrows.
    split.
    + intros [[[[Hf | Hr] | Hc] | Hl] | Hrt].
      * discriminate.
      * now left.
      * right. split; [lia|]. now left.
      * right. split; [lia|]. right. now left.
      * right. split; [lia|]. right. now right.
    + intros [Hr | (_ & [Hc | [Hl | Hrt]])].
      * left. left. left. now right.
      * left. left. now right.
      * left. now right.
      * now right.
  - intros E. apply Ok_inj in E. subst w0. rewrite Hrows.
    assert (Hlow : len board / COLS < 4).
    { destruct (Z.geb_spec (len board / COLS) 4); [discriminate | lia]. }
    split.
    + intros [Hf | Hr]; [discriminate | now left].
    + intros [Hr | (Hhigh & _)]; [now right | lia].
Qed.

End BoardScan.

(** X11.  What [check_victory] answers, in full: the scans end with
    [yellow_wins] up exactly when some scanned line is a hit for
    YELLOW, with [red_wins] up exactly when one is a hit for RED, and
    the answer is read off these two flags. *)
Theorem check_victory_exactly (board : list Z) (who_played : Z) :
  exists w,
    scan_board board = Ok w
    /\ (yellow_wins w = true <-> board_hit board YELLOW)
    /\ (red_wins w = true <-> board_hit board RED)
    /\ check_victory board who_played = Ok (verdict w who_played).
Proof.
  destruct (scan_board_total board) as [w Hscan]. exists w.
  split; [exact Hscan|]. split; [|split].
  - exact (scan_board_iff board YELLOW (or_introl eq_refl) w Hscan).
  - exact (scan_board_iff board RED (or_intror eq_refl) w Hscan).
  - unfold check_victory. now rewrite Hscan.
Qed.

(** ** The victory detector: the two colours are treated alike *)

Lemma other_colour_eqb (a b : Z) :
  (other_colour a =? other_colour b) = (a =? b).
Proof.
  destruct (Z.eqb_spec a b) as [-> | Hab]; [apply Z.eqb_refl|].
  apply Z.eqb_neq. unfold other_colour, YELLOW, RED.
  destruct (Z.eqb_spec a 1), (Z.eqb_spec a 2),
    (Z.eqb_spec b 1), (Z.eqb_spec b 2); lia.
Qed.

Lemma other_colour_zero (a : Z) : (other_colour a =? 0) = (a =? 0).
Proof. exact (other_colour_eqb a 0). Qed.

Lemma record_win_swap (k : Z) (w : wins) :
  record_win (other_colour k) (swap_wins w) = swap_wins (record_win k w).
Proof.
  unfold record_win, other_colour, YELLOW, RED.
  destruct (Z.eqb_spec k 1) as [-> | H1]; [reflexivity|].
  destruct (Z.eqb_spec k 2) as [-> | H2]; [reflexivity|].
  destruct (Z.eqb_spec k 1); [contradiction|].
  destruct (Z.eqb_spec k 2); [contradiction|]. reflexivity.
Qed.

Lemma scan_cell_swap (pos v : Z) (s : streak * wins) :
  scan_cell pos (other_colour v) (swap_state s) = swap_state (scan_cell pos v s).
Proof.
  destruct s as [[k i] w]. unfold scan_cell, swap_state.
  cbn [fst snd streak_piece index_of_streak_start].
  rewrite other_colour_eqb, other_colour_zero.
  destruct (negb (v =? k)); [|reflexivity].
  cbn [fst snd streak_piece index_of_streak_start].
  f_equal.
  destruct (negb (k =? 0) && (pos - i + 1 =? 4)); [|reflexivity].
  apply record_win_swap.
Qed.

Lemma scan_end_swap (extent : Z) (s : streak * wins) :
  scan_end extent (swap_state s) = swap_wins (scan_end extent s).
Proof.
  destruct s as [[k i] w]. unfold scan_end, swap_state.
  cbn [fst snd streak_piece index_of_streak_start].
  rewrite other_colour_zero.
  destruct (negb (k =? 0) && (extent =? 4)); [|reflexivity].
  apply record_win_swap.
Qed.

Lemma feed_swap (cells : Z -> Z) (xs : list Z) :
  forall s,
    feed (fun x => other_colour (cells x)) xs (swap_state s)
    = swap_state (feed cells xs s).
Proof.
  induction xs as [|x rest IH]; intros s; [reflexivity|].
  rewrite !feed_cons, scan_cell_swap. apply IH.
Qed.

(** A line of the board with the colours exchanged ends with the
    flags exchanged. *)
Lemma line_swap (cells : Z -> Z) (xs : list Z) (extent : Z) (w : wins) :
  scan_end
    (extent - index_of_streak_start
                (fst (feed (fun x => other_colour (cells x)) xs
                           (new_streak, swap_wins w))))
    (feed (fun x => other_colour (cells x)) xs (new_streak, swap_wins w))
  = swap_wins
      (scan_end
         (extent - index_of_streak_start (fst (feed cells xs (new_streak, w))))
         (feed cells xs (new_streak, w))).
Proof.
  change (new_streak, swap_wins w) with (swap_state (new_streak, w)).
  rewrite feed_swap. now rewrite scan_end_swap.
Qed.

Lemma for_each_swap (xs : list Z) (f g : Z -> wins -> result wins) :
  (forall x w w', In x xs -> f x w = Ok w' -> g x (swap_wins w) = Ok (swap_wins w')) ->
  forall w w', for_each xs f w = Ok w' ->
               for_each xs g (swap_wins w) = Ok (swap_wins w').
Proof.
  induction xs as [|x rest IH]; intros Hfg w w'; simpl.
  - intros E. apply Ok_inj in E. now subst.
  - destruct (f x w) as [w1| |] eqn:Hx; simpl; try discriminate.
    rewrite (Hfg x w w1 (or_introl eq_refl) Hx). simpl.
    apply IH. intros y u u' Hy. apply Hfg. now right.
Qed.

Lemma for_each_coord_swap (cs : list (Z * Z))
      (f g : Z -> Z -> wins -> result wins) :
  (forall row col w w', In (row, col) cs -> f row col w = Ok w' ->
                        g row col (swap_wins w) = Ok (swap_wins w')) ->
  forall w w', for_each_coord cs f w = Ok w' ->
               for_each_coord cs g (swap_wins w) = Ok (swap_wins w').
Proof.
  induction cs as [|[r c] rest IH]; intros Hfg w w'; simpl.
  - intros E. apply Ok_inj in E. now subst.
  - destruct (f r c w) as [w1| |] eqn:Hx; simpl; try discriminate.
    rewrite (Hfg r c w w1 (or_introl eq_refl) Hx). simpl.
    apply IH. intros y z u u' Hy. apply Hfg. now right.
Qed.

Lemma len_map_colours (board : list Z) : len (map other_colour board) = len board.
Proof. unfold len. now rewrite length_map. Qed.

Lemma cell_map_colours (board : list Z) (row col : Z) :
  cell (map other_colour board) row col = other_colour (cell board row col).
Proof. unfold cell. exact (map_nth other_colour board 0 _). Qed.

Section ColourSwap.

Variable board : list Z.

Lemma scan_row_swap (row : Z) (w w' : wins) :
  0 <= row < len board / COLS ->
  scan_row board row w = Ok w' ->
  scan_row (map other_colour board) row (swap_wins w) = Ok (swap_wins w').
Proof.
  intros Hrow. rewrite (scan_row_feed board row w Hrow).
  intros E. apply Ok_inj in E. subst w'.
  rewrite scan_row_feed by (rewrite len_map_colours; exact Hrow).
  f_equal.
  rewrite (feed_ext (cell (map other_colour board) row)
             (fun x => other_colour (cell board row x)))
    by (intros; apply cell_map_colours).
  apply line_swap.
Qed.

Lemma scan_column_swap (col : Z) (w w' : wins) :
  0 <= col < 7 ->
  scan_column board (len board / COLS) col w = Ok w' ->
  scan_column (map other_colour board) (len board / COLS) col (swap_wins w)
  = Ok (swap_wins w').
Proof.
  intros Hcol. rewrite (scan_column_feed board col w Hcol).
  intros E. apply Ok_inj in E. subst w'.
  pose proof (scan_column_feed (map other_colour board) col (swap_wins w) Hcol)
    as Hswap.
  rewrite len_map_colours in Hswap. rewrite Hswap. f_equal.
  rewrite (feed_ext (fun r => cell (map other_colour board) r col)
             (fun r => other_colour (cell board r col)))
    by (intros; apply cell_map_colours).
  apply line_swap.
Qed.

Lemma scan_up_left_swap (row col : Z) (w w' : wins) :
  0 <= row <= len board / COLS -> -1 <= col <= 6 ->
  scan_up_left board (len board / COLS) row col w = Ok w' ->
  scan_up_left (map other_colour board) (len board / COLS) row col (swap_wins w)
  = Ok (swap_wins w').
Proof.
  intros Hrow Hcol. rewrite (scan_up_left_cells board row col w Hrow Hcol).
  intros E. apply Ok_inj in E. subst w'.
  assert (Hrow' : 0 <= row <= len (map other_colour board) / COLS)
    by (rewrite len_map_colours; exact Hrow).
  pose proof (scan_up_left_cells (map other_colour board) row col (swap_wins w)
                Hrow' Hcol) as Hswap.
  rewrite len_map_colours in Hswap. rewrite Hswap. f_equal.
  rewrite (feed_ext (fun k => cell (map other_colour board) (row + k) (col - k))
             (fun k => other_colour (cell board (row + k) (col - k))))
    by (intros; apply cell_map_colours).
  apply line_swap.
Qed.

Lemma scan_up_right_swap (row col : Z) (w w' : wins) :
  0 <= row <= len board / COLS -> 0 <= col <= 7 ->
  scan_up_right board (len board / COLS) row col w = Ok w' ->
  scan_up_right (map other_colour board) (len board / COLS) row col (swap_wins w)
  = Ok (swap_wins w').
Proof.
  intros Hrow Hcol. rewrite (scan_up_right_cells board row col w Hrow Hcol).
  intros E. apply Ok_inj in E. subst w'.
  assert (Hrow' : 0 <= row <= len (map other_colour board) / COLS)
    by (rewrite len_map_colours; exact Hrow).
  pose proof (scan_up_right_cells (map other_colour board) row col (swap_wins w)
                Hrow' Hcol) as Hswap.
  rewrite len_map_colours in Hswap. rewrite Hswap. f_equal.
  rewrite (feed_ext (fun k => cell (map other_colour board) (row + k) (col + k))
             (fun k => other_colour (cell board (row + k) (col + k))))
    by (intros; apply cell_map_colours).
  apply line_swap.
Qed.

(** The scans of the board with the colours exchanged end with the
    flags exchanged. *)
Lemma check_horizontals_swap (w w' : wins) :
  check_horizontals board (len board / COLS) w = Ok w' ->
  check_horizontals (map other_colour board) (len board / COLS) (swap_wins w)
  = Ok (swap_wins w').
Proof.
  unfold check_horizontals. apply for_each_swap.
  intros row u u' Hin. apply in_range in Hin. now apply scan_row_swap.
Qed.

Lemma check_verticals_swap (w w' : wins) :
  check_verticals board (len board / COLS) w = Ok w' ->
  check_verticals (map other_colour board) (len board / COLS) (swap_wins w)
  = Ok (swap_wins w').
Proof.
  unfold check_verticals. apply for_each_swap.
  intros col u u' Hin. apply in_range in Hin. now apply scan_column_swap.
Qed.

Lemma check_up_left_swap (w w' : wins) :
  check_up_left board (len board / COLS) w = Ok w' ->
  check_up_left (map other_colour board) (len board / COLS) (swap_wins w)
  = Ok (swap_wins w').
Proof.
  unfold check_up_left. apply for_each_coord_swap.
  intros row col u u' Hin. apply up_left_starts_bounds in Hin.
  now apply scan_up_left_swap.
Qed.

Lemma check_up_right_swap (w w' : wins) :
  check_up_right board (len board / COLS) w = Ok w' ->
  check_up_right (map other_colour board) (len board / COLS) (swap_wins w)
  = Ok (swap_wins w').
Proof.
  unfold check_up_right. apply for_each_coord_swap.
  intros row col u u' Hin. apply up_right_starts_bounds in Hin.
  now apply scan_up_right_swap.
Qed.

(** The scans of the board with the colours exchanged end with the
    flags exchanged. *)
Lemma scan_board_swap (w : wins) :
  scan_board board = Ok w ->
  scan_board (map other_colour board) = Ok (swap_wins w).
Proof.
  unfold scan_board. rewrite len_map_colours.
  destruct (check_horizontals board _ _) as [w0| |] eqn:H0;
    cbn [bind]; try discriminate.
  change no_wins with (swap_wins no_wins) at 1.
  rewrite (check_horizontals_swap no_wins w0 H0). cbn [bind].
  destruct (len board / COLS >=? 4).
  - destruct (check_verticals board _ _) as [w1| |] eqn:H1;
      cbn [bind]; try discriminate.
    rewrite (check_verticals_swap w0 w1 H1). cbn [bind].
    destruct (check_up_left board _ _) as [w2| |] eqn:H2;
      cbn [bind]; try discriminate.
    rewrite (check_up_left_swap w1 w2 H2). cbn [bind].
    apply check_up_right_swap.
  - intros E. apply Ok_inj in E. now subst.
Qed.

End ColourSwap.

Lemma verdict_swap (w : wins) (who_played : Z) :
  who_played = YELLOW \/ who_played = RED ->
  verdict (swap_wins w) (other_colour who_played)
  = other_colour (verdict w who_played).
Proof.
  intros [-> | ->]; unfold verdict, swap_wins; simpl;
    destruct (yellow_wins w), (red_wins w); reflexivity.
Qed.

(** X12.  The two colours are treated alike: exchanging YELLOW and RED
    on every cell of the board and taking the other player as the
    mover exchanges the answer (0 stays 0). *)
Theorem check_victory_colour_symmetry (board : list Z) (who_played : Z) :
  who_played = YELLOW \/ who_played = RED ->
  exists r,
    check_victory board who_played = Ok r
    /\ check_victory (map other_colour board) (other_colour who_played)
       = Ok (other_colour r).
Proof.
  intros Hwho. destruct (scan_board_total board) as [w Hscan].
  exists (verdict w who_played). unfold check_victory.
  rewrite Hscan, (scan_board_swap board w Hscan). simpl.
  split; [reflexivity|]. now rewrite verdict_swap.
Qed.

Lemma check_victory_colour_symmetry_witness :
  exists r,
    check_victory double_win_board YELLOW = Ok r
    /\ check_victory (map other_colour double_win_board) (other_colour YELLOW)
       = Ok (other_colour r).
Proof.
  apply (check_victory_colour_symmetry double_win_board YELLOW).
  left. reflexivity.
Defined.
